(** * measure-sfn: execution-duration reports for workflow executions

    A shallow embedding of [main.go]: the filter/transform loop of [main],
    the type [SfnRecords] with its duration statistics, the two CSV
    writers, and the parts of Go's [time], [fmt], [strings] and
    [encoding/csv] packages that the program calls. *)

From Stdlib Require Import ZArith String Ascii List Lia Bool.
From Stdlib Require Import DecimalString.
From Stdlib Require Import Floats.SpecFloat.
From stdpp Require Import gmap strings list fin_maps.

Local Open Scope string_scope.
Local Open Scope Z_scope.

(** ** Machine integers *)

(** Go's [int64] arithmetic wraps around; [wrap64] is the two's-complement
    reduction applied after every [+], [-] and [*]. *)
Definition wrap64 (z : Z) : Z := (z + 2 ^ 63) mod 2 ^ 64 - 2 ^ 63.

Definition minInt64 : Z := - 2 ^ 63.
Definition maxInt64 : Z := 2 ^ 63 - 1.

Definition in_int64 (z : Z) : Prop := minInt64 <= z <= maxInt64.

(** ** Package time *)

Module time.

(** A [Duration] is an [int64] count of nanoseconds. *)
Definition Duration := Z.

Definition Nanosecond : Duration := 1.
Definition Second : Duration := 1000000000.
Definition minDuration : Duration := minInt64.
Definition maxDuration : Duration := maxInt64.

(** A [Time] is an instant, kept as nanoseconds since the Unix epoch,
    together with its location.  Locations are fixed offsets, in seconds
    east of UTC; the service's timestamps are in UTC (offset 0). *)
Record Time := mkTime { instant : Z; zoneOffset : Z }.

Definition sec (t : Time) : Z := instant t / Second.
Definition nsec (t : Time) : Z := instant t mod Second.

Definition Before (t u : Time) : bool := instant t <? instant u.
Definition Equal (t u : Time) : bool := instant t =? instant u.
Definition Add (t : Time) (d : Duration) : Time :=
  mkTime (instant t + d) (zoneOffset t).

(** [t.Sub(u)]: the difference in [int64] arithmetic, replaced by the
    largest or smallest [Duration] when it does not fit. *)
Definition Sub (t u : Time) : Duration :=
  let d := wrap64 (wrap64 (wrap64 (sec t - sec u) * Second) + wrap64 (nsec t - nsec u)) in
  if Equal (Add u d) t then d
  else if Before t u then minDuration
  else maxDuration.

(** Proleptic Gregorian calendar: day number (days since 1970-01-01) of
    a civil date, and back.  [d] may lie outside the month, as in
    [time.Date], which adds [d - 1] days to the first of the month. *)
Definition daysFromCivil (y m d : Z) : Z :=
  let y' := if m <=? 2 then y - 1 else y in
  let era := y' / 400 in
  let yoe := y' - era * 400 in
  let mp := if m <=? 2 then m + 9 else m - 3 in
  let doy := (153 * mp + 2) / 5 + (d - 1) in
  let doe := yoe * 365 + yoe / 4 - yoe / 100 + doy in
  era * 146097 + doe - 719468.

Definition civilFromDays (z : Z) : Z * Z * Z :=
  let z' := z + 719468 in
  let era := z' / 146097 in
  let doe := z' - era * 146097 in
  let yoe := (doe - doe / 1460 + doe / 36524 - doe / 146096) / 365 in
  let doy := doe - (365 * yoe + yoe / 4 - yoe / 100) in
  let mp := (5 * doy + 2) / 153 in
  let d := doy - (153 * mp + 2) / 5 + 1 in
  let m := if mp <? 10 then mp + 3 else mp - 9 in
  (if m <=? 2 then yoe + era * 400 + 1 else yoe + era * 400, m, d).

(** Seconds since the epoch on the wall clock of [t]'s location. *)
Definition localSec (t : Time) : Z := sec t + zoneOffset t.

(** [t.Date()] and [t.Clock()]. *)
Definition Date_of (t : Time) : Z * Z * Z := civilFromDays (localSec t / 86400).
Definition Clock (t : Time) : Z * Z * Z :=
  let s := localSec t mod 86400 in (s / 3600, s mod 3600 / 60, s mod 60).

(** [time.Date(year, month, day, hour, min, sec, nsec, loc)]: the month is
    normalised into the year, every other field simply adds its span. *)
Definition Date (year month day hour min sec nsec off : Z) : Time :=
  let m0 := month - 1 in
  let year' := year + m0 / 12 in
  let month' := m0 mod 12 + 1 in
  let days := daysFromCivil year' month' day in
  let unix := days * 86400 + hour * 3600 + min * 60 + sec - off in
  mkTime (unix * Second + nsec) off.

Definition AddDate (t : Time) (years months days : Z) : Time :=
  let '(year, month, day) := Date_of t in
  let '(hour, min, sec) := Clock t in
  Date (year + years) (month + months) (day + days) hour min sec (nsec t) (zoneOffset t).

End time.

(** ** Package strconv / fmt: decimal output *)

(** Decimal digits of a natural number, without sign. *)
Definition utoa (n : N) : string := NilZero.string_of_uint (N.to_uint n).

Fixpoint zeros (n : nat) : string :=
  match n with O => "" | S n' => String "0" (zeros n') end.

(** Digits of [n] padded with zeros on the left to [width] digits. *)
Definition utoaPad (n : N) (width : nat) : string :=
  let s := utoa n in zeros (width - String.length s) ++ s.

(** [appendInt] of package time: optional minus sign, then zero padding. *)
Definition appendInt (x : Z) (width : nat) : string :=
  if x <? 0 then String "-" (utoaPad (Z.to_N (- x)) width)
  else utoaPad (Z.to_N x) width.

(** [fmt.Sprintf("%d", n)]. *)
Definition Sprintf_d (n : Z) : string :=
  if n <? 0 then String "-" (utoa (Z.to_N (- n))) else utoa (Z.to_N n).

(** [t.Format(time.DateOnly)], layout ["2006-01-02"]. *)
Definition Format_DateOnly (t : time.Time) : string :=
  let '(y, m, d) := time.Date_of t in
  appendInt y 4 ++ "-" ++ appendInt m 2 ++ "-" ++ appendInt d 2.

(** ** float64 *)

Definition float64 := spec_float.
Definition prec64 : Z := 53.
Definition emax64 : Z := 1024.

(** Conversion [float64(n)] of an integer, round to nearest even. *)
Definition float64_of_int (n : Z) : float64 := binary_normalize prec64 emax64 n 0 false.
Definition f64add : float64 -> float64 -> float64 := SFadd prec64 emax64.
Definition f64div : float64 -> float64 -> float64 := SFdiv prec64 emax64.

(** [d.Seconds()]. *)
Definition Seconds (d : time.Duration) : float64 :=
  let sec := Z.quot d time.Second in
  let nsec := Z.rem d time.Second in
  f64add (float64_of_int sec) (f64div (float64_of_int nsec) (float64_of_int 1000000000)).

(** Round-half-even of the rational [n / d] ([0 <= n], [0 < d]). *)
Definition roundHalfEven (n d : Z) : Z :=
  let q := n / d in
  let r := n mod d in
  match 2 * r ?= d with
  | Lt => q
  | Gt => q + 1
  | Eq => if Z.even q then q else q + 1
  end.

(** The magnitude of a finite float in hundredths, correctly rounded:
    the decimal expansion is exact, then rounded half-even after the
    second fraction digit, as [strconv] does for format ['f']. *)
Definition hundredths (m : positive) (e : Z) : Z :=
  if 0 <=? e then Z.pos m * 2 ^ e * 100
  else roundHalfEven (Z.pos m * 100) (2 ^ (- e)).

Definition fixed2 (neg : bool) (h : Z) : string :=
  (if neg then "-" else "") ++ utoa (Z.to_N (h / 100)) ++ "." ++ utoaPad (Z.to_N (h mod 100)) 2.

(** [fmt.Sprintf("%.2f", f)]. *)
Definition Sprintf_2f (f : float64) : string :=
  match f with
  | S754_zero s => fixed2 s 0
  | S754_finite s m e => fixed2 s (hundredths m e)
  | S754_infinity s => if s then "-Inf" else "+Inf"
  | S754_nan => "NaN"
  end.

Definition durationToSeconfString (d : time.Duration) : string := Sprintf_2f (Seconds d).

(** ** Package strings *)

Definition colon : ascii := ":"%char.
Definition comma : ascii := ","%char.
Definition dquote : ascii := "034"%char.
Definition CR : ascii := "013"%char.
Definition LF : ascii := "010"%char.

(** [strings.Split(s, sep)] for a one-byte separator: the substrings
    between the separators; never empty ([Split("", sep)] is [[""]]). *)
Fixpoint Split (s : string) (sep : ascii) : list string :=
  match s with
  | EmptyString => [EmptyString]
  | String c s' =>
      if Ascii.eqb c sep then EmptyString :: Split s' sep
      else match Split s' sep with
           | f :: fs => String c f :: fs
           | [] => [String c EmptyString]
           end
  end.

(** ** Run-time panics and results *)

Inductive panic : Type :=
  | NilDereference
  | IndexOutOfRange
  | DivideByZero
  | PanicMsg (msg : string)
  | PanicErr (err : string).

Inductive result (A : Type) : Type :=
  | Done (a : A)
  | Panicked (p : panic).
Arguments Done {A} a.
Arguments Panicked {A} p.

#[global] Instance result_ret : MRet result := fun A a => Done a.
#[global] Instance result_bind : MBind result := fun A B k r =>
  match r with
  | Done a => k a
  | Panicked p => Panicked p
  end.

(** Pointer dereference [*p] and slice indexing [s[i]]. *)
Definition deref {A : Type} (p : option A) : result A :=
  match p with Some a => Done a | None => Panicked NilDereference end.

Definition index {A : Type} (s : list A) (i : nat) : result A :=
  match s !! i with Some a => Done a | None => Panicked IndexOutOfRange end.

(** ** The records of [main.go] *)

Record SfnRecord := mkSfnRecord {
  Name : string;
  StartDate : string;
  Duration : time.Duration;
  Status : string
}.

Abbreviation SfnRecords := (list SfnRecord).

Definition StringDurationSecond (r : SfnRecord) : string :=
  Sprintf_2f (Seconds (Duration r)).

Definition MaxDuration (r : SfnRecords) : result time.Duration :=
  r0 ← index r 0;
  Done (fold_left (fun max record => if Duration record >? max then Duration record else max)
                  r (Duration r0)).

Definition MinDuration (r : SfnRecords) : result time.Duration :=
  r0 ← index r 0;
  Done (fold_left (fun min record => if Duration record <? min then Duration record else min)
                  r (Duration r0)).

(** The running total of [AvgDuration], in [int64] arithmetic. *)
Definition totalDuration (r : SfnRecords) : time.Duration :=
  fold_left (fun total record => wrap64 (total + Duration record)) r 0.

Definition AvgDuration (r : SfnRecords) : result time.Duration :=
  let total := totalDuration r in
  let n := Z.of_nat (length r) in
  if n =? 0 then Panicked DivideByZero else Done (Z.quot total n).

Definition Len (r : SfnRecords) : Z := Z.of_nat (length r).

(** ** The service's answers *)

Record Execution := mkExecution {
  exStartDate : option time.Time;
  exStopDate : option time.Time;
  exStatus : option string
}.

Record StateMachine := mkStateMachine {
  StateMachineArn : option string
}.

(** ** The loop body of [main]

    [clock] gives the successive readings of [time.Now()] and [tick]
    counts the readings taken so far: the clock is read only for an
    execution that has both timestamps. *)
Definition transform (clock : nat -> time.Time) (machine : StateMachine)
    (st : SfnRecords * nat) (execution : Execution) : result (SfnRecords * nat) :=
  let '(records, tick) := st in
  match exStartDate execution, exStopDate execution with
  | Some start, Some stop =>
      if time.Before start (time.AddDate (clock tick) 0 (-2) 0) then Done (records, S tick)
      else
        let duration := time.Sub stop start in
        arn ← deref (StateMachineArn machine);
        name ← index (Split arn colon) 6;
        status ← deref (exStatus execution);
        Done ((records ++ [mkSfnRecord name (Format_DateOnly start) duration status])%list, S tick)
  | _, _ => Done (records, tick)
  end.

(** A [for ... range] loop whose body may panic. *)
Fixpoint forEach {A S : Type} (body : S -> A -> result S) (l : list A) (st : S) : result S :=
  match l with
  | [] => Done st
  | a :: l' => st' ← body st a; forEach body l' st'
  end.

(** ** Package unicode/utf8 and unicode *)

Definition byteZ (c : ascii) : Z := Z.of_N (N_of_ascii c).
Definition RuneError : Z := 65533.

(** [utf8.DecodeRuneInString]: the first rune of [s] and its width; an
    ill-formed sequence decodes to [RuneError] of width 1. *)
Definition DecodeRuneInString (s : string) : Z * nat :=
  match s with
  | EmptyString => (RuneError, 0%nat)
  | String c0 t =>
      let s0 := byteZ c0 in
      if s0 <? 128 then (s0, 1%nat)
      else if (s0 <? 194) || (244 <? s0) then (RuneError, 1%nat)
      else
        let sz := if s0 <? 224 then 2 else if s0 <? 240 then 3 else 4 in
        let lo := if s0 =? 224 then 160 else if s0 =? 240 then 144 else 128 in
        let hi := if s0 =? 237 then 159 else if s0 =? 244 then 143 else 191 in
        if Z.of_nat (String.length s) <? sz then (RuneError, 1%nat)
        else
          match t with
          | String c1 t1 =>
              let s1 := byteZ c1 in
              if (s1 <? lo) || (hi <? s1) then (RuneError, 1%nat)
              else if sz <=? 2 then
                (Z.lor (Z.shiftl (Z.land s0 31) 6) (Z.land s1 63), 2%nat)
              else
                match t1 with
                | String c2 t2 =>
                    let s2 := byteZ c2 in
                    if (s2 <? 128) || (191 <? s2) then (RuneError, 1%nat)
                    else if sz <=? 3 then
                      (Z.lor (Z.lor (Z.shiftl (Z.land s0 15) 12) (Z.shiftl (Z.land s1 63) 6))
                             (Z.land s2 63), 3%nat)
                    else
                      match t2 with
                      | String c3 _ =>
                          let s3 := byteZ c3 in
                          if (s3 <? 128) || (191 <? s3) then (RuneError, 1%nat)
                          else
                            (Z.lor (Z.lor (Z.lor (Z.shiftl (Z.land s0 7) 18)
                                                 (Z.shiftl (Z.land s1 63) 12))
                                          (Z.shiftl (Z.land s2 63) 6))
                                   (Z.land s3 63), 4%nat)
                      | EmptyString => (RuneError, 1%nat)
                      end
                | EmptyString => (RuneError, 1%nat)
                end
          | EmptyString => (RuneError, 1%nat)
          end
  end.

(** [unicode.IsSpace]. *)
Definition IsSpace (r : Z) : bool :=
  if (0 <=? r) && (r <=? 255) then
    (r =? 9) || (r =? 10) || (r =? 11) || (r =? 12) || (r =? 13) || (r =? 32)
    || (r =? 133) || (r =? 160)
  else
    (r =? 5760) || ((8192 <=? r) && (r <=? 8202)) || (r =? 8232) || (r =? 8233)
    || (r =? 8239) || (r =? 8287) || (r =? 12288).

(** ** Package encoding/csv: the Writer *)

Fixpoint anyByte (p : ascii -> bool) (s : string) : bool :=
  match s with
  | EmptyString => false
  | String c s' => p c || anyByte p s'
  end.

Definition isSpecial (c : ascii) : bool :=
  Ascii.eqb c LF || Ascii.eqb c CR || Ascii.eqb c dquote || Ascii.eqb c comma.

(** [Writer.fieldNeedsQuotes] with [Comma = ','].  The second test is
    for the field [\.], the end-of-data marker of some databases. *)
Definition fieldNeedsQuotes (field : string) : bool :=
  if String.eqb field "" then false
  else if String.eqb field "\." then true
  else if anyByte isSpecial field then true
  else IsSpace (fst (DecodeRuneInString field)).

(** The body of a quoted field: quotes are doubled; with [UseCRLF] unset
    carriage returns and line feeds are written as they are. *)
Fixpoint writeQuoted (field : string) : string :=
  match field with
  | EmptyString => EmptyString
  | String c field' =>
      if Ascii.eqb c dquote then String dquote (String dquote (writeQuoted field'))
      else if Ascii.eqb c CR then String CR (writeQuoted field')
      else if Ascii.eqb c LF then String LF (writeQuoted field')
      else String c (writeQuoted field')
  end.

Definition writeField (field : string) : string :=
  if fieldNeedsQuotes field then String dquote (writeQuoted field ++ String dquote "")
  else field.

Fixpoint writeFields (n : nat) (record : list string) : string :=
  match record with
  | [] => EmptyString
  | field :: record' =>
      (if (0 <? n)%nat then String comma "" else "") ++ writeField field
      ++ writeFields (S n) record'
  end.

(** [Writer.Write]: the bytes appended to the buffer for one record. *)
Definition csvWrite (record : list string) : string :=
  writeFields 0 record ++ String LF "".

Fixpoint csvWriteAll (rows : list (list string)) : string :=
  match rows with
  | [] => EmptyString
  | row :: rows' => csvWrite row ++ csvWriteAll rows'
  end.

(** ** Files

    A file system maps paths to contents.  Whether [os.Create] and the
    writes to a path succeed is decided by the environment. *)
Abbreviation FS := (gmap string string).

Record Env := mkEnv {
  newSession : string -> option string;
  ListStateMachines : string + list StateMachine;
  ListExecutions : StateMachine -> string + list Execution;
  Now : nat -> time.Time;
  createError : string -> option string;
  writeError : string -> option string;
  rangeOrder : gmap string SfnRecords -> list (string * SfnRecords)
}.

(** [os.Create] followed by buffered writes and a final [Flush]: the
    file is replaced by [content], or an error comes back. *)
Definition writeFile (env : Env) (path content : string) (fs : FS) : string + FS :=
  match createError env path with
  | Some err => inl err
  | None =>
      match writeError env path with
      | Some err => inl err
      | None => inr (<[path := content]> fs)
      end
  end.

Definition recordRow (record : SfnRecord) : list string :=
  [Name record; StartDate record; StringDurationSecond record; Status record].

Definition rawHeader : list string := ["Name"; "StartDate"; "Duration"; "Status"].
Definition aggregateHeader : list string := ["Name"; "Max"; "Min"; "Avg"; "Len"].

Definition createCsvFile (env : Env) (records : SfnRecords) (fs : FS) : string + FS :=
  writeFile env "sfn.csv" (csvWriteAll (rawHeader :: map recordRow records)) fs.

(** ** Aggregation *)

Abbreviation AggregatedRecordMap := (gmap string SfnRecords).

(** The map built by the loop of [aggregate]:
    [aggregated[record.Name] = append(aggregated[record.Name], record)]. *)
Definition aggregated (r : SfnRecords) : AggregatedRecordMap :=
  fold_left (fun m record => <[Name record := (default [] (m !! Name record) ++ [record])%list]> m)
            r ∅.

Definition aggregateRow (name : string) (records : SfnRecords) : result (list string) :=
  max ← MaxDuration records;
  min ← MinDuration records;
  avg ← AvgDuration records;
  Done [name; durationToSeconfString max; durationToSeconfString min;
        durationToSeconfString avg; Sprintf_d (Len records)].

Fixpoint aggregateRows (groups : list (string * SfnRecords)) : result (list (list string)) :=
  match groups with
  | [] => Done []
  | (name, records) :: groups' =>
      row ← aggregateRow name records;
      rows ← aggregateRows groups';
      Done (row :: rows)
  end.

(** The rows are written in the order in which [range] visits the map,
    which the environment chooses. *)
Definition createAggregateCsvFile (env : Env) (records : AggregatedRecordMap) (fs : FS)
    : result (string + FS) :=
  rows ← aggregateRows (rangeOrder env records);
  Done (writeFile env "aggregate.csv" (csvWriteAll (aggregateHeader :: rows)) fs).

Definition aggregate (env : Env) (r : SfnRecords) (fs : FS) : result (string + FS) :=
  createAggregateCsvFile env (aggregated r) fs.

(** ** [main] *)

Definition orPanic {A : Type} (r : string + A) : result A :=
  match r with
  | inl err => Panicked (PanicErr err)
  | inr a => Done a
  end.

(** The two nested loops of [main]: the records in discovery order. *)
Definition fetch (env : Env) (machines : list StateMachine) : result (SfnRecords * nat) :=
  forEach (fun st machine =>
             executions ← orPanic (ListExecutions env machine);
             forEach (transform (Now env) machine) executions st)
          machines ([], 0%nat).

Definition main (env : Env) (profile : string) (fs : FS) : result FS :=
  if String.eqb profile "" then Panicked (PanicMsg "profile is required")
  else
    match newSession env profile with
    | Some err => Panicked (PanicErr err)
    | None =>
        machines ← orPanic (ListStateMachines env);
        st ← fetch env machines;
        fs1 ← orPanic (createCsvFile env (fst st) fs);
        r ← aggregate env (fst st) fs1;
        orPanic r
    end.

(** ** Package encoding/csv: the Reader

    The Reader with its default settings: [Comma = ','], no comment
    character, [FieldsPerRecord = 0], [LazyQuotes] and
    [TrimLeadingSpace] unset.  The input is the whole file. *)

Fixpoint stake (n : nat) (s : string) : string :=
  match n, s with
  | S n', String c s' => String c (stake n' s')
  | _, _ => EmptyString
  end.

Fixpoint sdrop (n : nat) (s : string) : string :=
  match n, s with
  | S n', String _ s' => sdrop n' s'
  | _, _ => s
  end.

Fixpoint IndexByte (s : string) (c : ascii) : option nat :=
  match s with
  | EmptyString => None
  | String b s' => if Ascii.eqb b c then Some 0%nat else S <$> IndexByte s' c
  end.

(** [bufio.Reader.ReadSlice('\n')]: the bytes up to and including the
    first line feed, what follows, and whether the input ended first. *)
Fixpoint ReadSlice (s : string) : string * string * bool :=
  match s with
  | EmptyString => (EmptyString, EmptyString, true)
  | String c s' =>
      if Ascii.eqb c LF then (String LF "", s', false)
      else let '(line, rest, eof) := ReadSlice s' in (String c line, rest, eof)
  end.

Fixpoint dropTrailingCR (line : string) : string :=
  match line with
  | EmptyString => EmptyString
  | String c line' =>
      match line' with
      | EmptyString => if Ascii.eqb c CR then EmptyString else line
      | String _ _ => String c (dropTrailingCR line')
      end
  end.

Fixpoint normalizeCRLF (line : string) : string :=
  match line with
  | EmptyString => EmptyString
  | String c1 line' =>
      match line' with
      | String c2 EmptyString =>
          if Ascii.eqb c1 CR && Ascii.eqb c2 LF then String LF "" else line
      | _ => String c1 (normalizeCRLF line')
      end
  end.

Fixpoint lengthNL (line : string) : nat :=
  match line with
  | EmptyString => 0
  | String c EmptyString => if Ascii.eqb c LF then 1 else 0
  | String _ line' => lengthNL line'
  end.

(** [readLine]: a final line without line feed is not an end of input
    yet and loses a trailing carriage return; a line ending in CR LF is
    normalised to end in LF. *)
Definition readLine (s : string) : string * string * bool :=
  let '(line, rest, eof) := ReadSlice s in
  let '(line1, eof1) :=
    if (0 <? String.length line)%nat && eof then (dropTrailingCR line, false) else (line, eof) in
  (normalizeCRLF line1, rest, eof1).

Inductive ParseError : Type := ErrBareQuote | ErrQuote | ErrFieldCount.

Inductive readResult (A : Type) : Type :=
  | ROk (a : A)
  | REOF
  | RErr (e : ParseError)
  | RFuel.
Arguments ROk {A} a.
Arguments REOF {A}.
Arguments RErr {A} e.
Arguments RFuel {A}.

Definition nextRune (b : string) : Z := fst (DecodeRuneInString b).

(** The [parseField] loop of [readRecord].  [quoted] is [None] at the
    start of a field and [Some buf] inside a quoted field whose bytes so
    far are [buf]; [line] is what is left of the current line, [rest]
    the unread input, [dst] the fields completed so far. *)
Fixpoint parseField (fuel : nat) (quoted : option string) (line rest : string)
    (dst : list string) : readResult (list string * string) :=
  match fuel with
  | O => RFuel
  | S fuel' =>
      match quoted with
      | None =>
          match line with
          | String c line' =>
              if Ascii.eqb c dquote then parseField fuel' (Some "") line' rest dst
              else
                let i := IndexByte line comma in
                let field :=
                  match i with
                  | Some i => stake i line
                  | None => stake (String.length line - lengthNL line) line
                  end in
                match IndexByte field dquote with
                | Some _ => RErr ErrBareQuote
                | None =>
                    match i with
                    | Some i => parseField fuel' None (sdrop (i + 1) line) rest (dst ++ [field])%list
                    | None => ROk ((dst ++ [field])%list, rest)
                    end
                end
          | EmptyString => ROk ((dst ++ [""])%list, rest)
          end
      | Some buf =>
          match IndexByte line dquote with
          | Some i =>
              let buf' := buf ++ stake i line in
              let line' := sdrop (i + 1) line in
              let rn := nextRune line' in
              if rn =? byteZ dquote then
                parseField fuel' (Some (buf' ++ String dquote "")) (sdrop 1 line') rest dst
              else if rn =? byteZ comma then
                parseField fuel' None (sdrop 1 line') rest (dst ++ [buf'])%list
              else if (lengthNL line' =? String.length line')%nat then
                ROk ((dst ++ [buf'])%list, rest)
              else RErr ErrQuote
          | None =>
              if (0 <? String.length line)%nat then
                let '(line', rest', _) := readLine rest in
                parseField fuel' (Some (buf ++ line)) line' rest' dst
              else RErr ErrQuote
          end
      end
  end.

(** The first loop of [readRecord]: skip empty lines. *)
Fixpoint readNonEmptyLine (fuel : nat) (s : string) : readResult (string * string) :=
  match fuel with
  | O => RFuel
  | S fuel' =>
      let '(line, rest, eof) := readLine s in
      if eof then REOF
      else if (String.length line =? lengthNL line)%nat then readNonEmptyLine fuel' rest
      else ROk (line, rest)
  end.

(** [readRecord]: one record, the unread input and the new value of
    [FieldsPerRecord]. *)
Definition readRecord (fuel : nat) (fieldsPerRecord : nat) (s : string)
    : readResult (list string * string * nat) :=
  match readNonEmptyLine fuel s with
  | ROk (line, rest) =>
      match parseField fuel None line rest [] with
      | ROk (dst, rest') =>
          if (0 <? fieldsPerRecord)%nat then
            if (length dst =? fieldsPerRecord)%nat then ROk (dst, rest', fieldsPerRecord)
            else RErr ErrFieldCount
          else ROk (dst, rest', length dst)
      | REOF => REOF
      | RErr e => RErr e
      | RFuel => RFuel
      end
  | REOF => REOF
  | RErr e => RErr e
  | RFuel => RFuel
  end.

Fixpoint readAllLoop (fuel budget : nat) (fieldsPerRecord : nat) (s : string)
    (records : list (list string)) : readResult (list (list string)) :=
  match fuel with
  | O => RFuel
  | S fuel' =>
      match readRecord budget fieldsPerRecord s with
      | ROk (record, rest, n) => readAllLoop fuel' budget n rest (records ++ [record])%list
      | REOF => ROk records
      | RErr e => RErr e
      | RFuel => RFuel
      end
  end.

(** [Reader.ReadAll] on the input [s]. *)
Definition ReadAll (s : string) : readResult (list (list string)) :=
  readAllLoop (S (String.length s)) (S (String.length s)) 0 s [].

(** * Vocabulary of the statements and sample data *)

(** The instant before which an execution is dropped. *)
Definition cutoff (clock : nat -> time.Time) (tick : nat) : time.Time :=
  time.AddDate (clock tick) 0 (-2) 0.

(** A sample service answer used to instantiate the statements below:
    one state machine and an execution that ran for 3661.5 seconds on
    1 January 2024, seen on 15 January 2024. *)
Definition sampleArn : string := "arn:aws:states:us-east-1:123456789012:stateMachine:A".
Definition sampleMachine : StateMachine := mkStateMachine (Some sampleArn).
Definition sampleStart : time.Time := time.Date 2024 1 1 0 0 0 0 0.
Definition sampleStop : time.Time := time.Date 2024 1 1 1 1 1 500000000 0.
Definition sampleExecution : Execution :=
  mkExecution (Some sampleStart) (Some sampleStop) (Some "SUCCEEDED").
Definition sampleClock : nat -> time.Time := fun _ => time.Date 2024 1 15 12 0 0 0 0.
Definition sampleRecord : SfnRecord :=
  mkSfnRecord "A" "2024-01-01" 3661500000000 "SUCCEEDED".

(** [h] hundredths is a nearest value with two decimals to the float
    [m * 2 ^ e]. *)
Definition nearestHundredth (m : positive) (e h : Z) : Prop :=
  0 <= h /\
  2 * Z.abs (100 * Z.pos m * 2 ^ Z.max e 0 - h * 2 ^ Z.max (- e) 0) <= 2 ^ Z.max (- e) 0.

(** [str] is the decimal rendering of the float [f] rounded to two
    decimal places (for a number; the rendering of infinities and NaN
    has no digits). *)
Definition roundedTo2 (f : float64) (str : string) : Prop :=
  match f with
  | S754_zero s => str = fixed2 s 0
  | S754_finite s m e => exists h, str = fixed2 s h /\ nearestHundredth m e h
  | _ => str = Sprintf_2f f
  end.

(** An execution that started exactly at the cutoff of [sampleClock],
    15 November 2023 at noon. *)
Definition boundaryStart : time.Time := time.Date 2023 11 15 12 0 0 0 0.
Definition boundaryExecution : Execution :=
  mkExecution (Some boundaryStart) (Some sampleStop) (Some "SUCCEEDED").

(** An execution whose stop timestamp lies before its start timestamp. *)
Definition backwardsExecution : Execution :=
  mkExecution (Some sampleStop) (Some sampleStart) (Some "FAILED").

Definition durations (g : SfnRecords) : list Z := map Duration g.

(** The exact sum of the durations, in unbounded integers. *)
Definition sumDurations (g : SfnRecords) : Z := foldr Z.add 0 (durations g).

(** The records of [r] named [name], in the order of [r]. *)
Definition groupOf (name : string) (r : SfnRecords) : SfnRecords :=
  filter (fun x => Name x = name) r.

Definition seconds (n : Z) : time.Duration := n * time.Second.

(** Sample records: three executions of machine A and one of machine B,
    interleaved. *)
Definition recA10 : SfnRecord := mkSfnRecord "A" "2024-01-01" (seconds 10) "SUCCEEDED".
Definition recB7 : SfnRecord := mkSfnRecord "B" "2024-01-02" (seconds 7) "FAILED".
Definition recA20 : SfnRecord := mkSfnRecord "A" "2024-01-03" (seconds 20) "SUCCEEDED".
Definition recA30 : SfnRecord := mkSfnRecord "A" "2024-01-04" (seconds 30) "SUCCEEDED".
Definition sampleRecords : SfnRecords := [recA10; recB7; recA20; recA30].

(** [range] visits every entry of a map once, in some order. *)
Definition rangeOrder_ok (env : Env) : Prop :=
  forall m : gmap string SfnRecords, rangeOrder env m ≡ₚ map_to_list m.

(** An execution that is reported to run for 150 years: its duration
    fits a [Duration], the sum of two such durations does not. *)
Definition longExecution : Execution :=
  mkExecution (Some (time.Date 2024 1 1 0 0 0 0 0)) (Some (time.Date 2174 1 1 0 0 0 0 0))
              (Some "SUCCEEDED").
Definition longRecord : SfnRecord :=
  mkSfnRecord "A" "2024-01-01" 4733596800000000000 "SUCCEEDED".

(** The reference of C5, following the words of the specification: the
    exact (rational) average of the durations, in seconds, written with
    two decimals.  [n] durations summing to [total] nanoseconds average
    [total / (n * 10^9)] seconds, that is [total / (n * 10^7)]
    hundredths of a second; the quotient is rounded to the nearest
    integer, ties to even as the formatter does. *)
Definition exactAvgString (g : SfnRecords) : string :=
  let total := sumDurations g in
  let n := Z.of_nat (length g) in
  fixed2 (total <? 0) (roundHalfEven (Z.abs total) (n * 10000000)).

(** Two executions of 0.125000000s and 0.125000001s. *)
Definition tieGroup : SfnRecords :=
  [mkSfnRecord "A" "2024-01-01" 125000000 "SUCCEEDED";
   mkSfnRecord "A" "2024-01-01" 125000001 "SUCCEEDED"].

Definition NL : string := String LF "".

(** An environment in which the service knows no state machine and
    every file operation succeeds. *)
Definition quietEnv : Env :=
  mkEnv (fun _ => None) (inr []) (fun _ => inr []) sampleClock
        (fun _ => None) (fun _ => None) map_to_list.

(** The scenario of the specification: machine A with one execution of
    one minute on 1 January 2024, machine B with one execution that has
    no stop timestamp. *)
Definition arnA : string := "arn:aws:states:us-east-1:123456789012:stateMachine:A".
Definition arnB : string := "arn:aws:states:us-east-1:123456789012:stateMachine:B".
Definition scenarioEnv : Env :=
  mkEnv (fun _ => None)
        (inr [mkStateMachine (Some arnA); mkStateMachine (Some arnB)])
        (fun machine =>
           if decide (StateMachineArn machine = Some arnA) then
             inr [mkExecution (Some (time.Date 2024 1 1 0 0 0 0 0))
                              (Some (time.Date 2024 1 1 0 1 0 0 0)) (Some "SUCCEEDED")]
           else
             inr [mkExecution (Some (time.Date 2024 1 1 0 0 0 0 0)) None (Some "RUNNING")])
        sampleClock (fun _ => None) (fun _ => None) map_to_list.

Definition hasLF (s : string) : bool := anyByte (fun c => Ascii.eqb c LF) s.

(** No line feed of [s] follows a carriage return; [prevCR] tells
    whether the byte before [s] is a carriage return. *)
Fixpoint crlfFree (prevCR : bool) (s : string) : bool :=
  match s with
  | EmptyString => true
  | String c s' =>
      if Ascii.eqb c LF then negb prevCR && crlfFree false s'
      else crlfFree (Ascii.eqb c CR) s'
  end.

(** What follows a field in the output of [csvWrite]: the remaining
    fields, each after a comma, the line feed, and the rest of the
    file. *)
Fixpoint tailStream (fs : list string) (more : string) : string :=
  match fs with
  | [] => String LF more
  | f :: fs' => String comma (writeField f ++ tailStream fs' more)
  end.

(** A field and the fields after it are read back from the bytes
    written for them, whatever fuel above their length is given. *)
Definition parsesFrom (f : string) (fs : list string) (more : string) : Prop :=
  forall fuel dst line rest e,
    ReadSlice (writeField f ++ tailStream fs more) = (line, rest, e) ->
    (String.length (writeField f ++ tailStream fs more) < fuel)%nat ->
    parseField fuel None line rest dst = ROk ((dst ++ f :: fs)%list, more).

Definition parsesNext (fs : list string) (more : string) : Prop :=
  match fs with
  | [] => True
  | f' :: fs' => parsesFrom f' fs' more
  end.

(** A field without CR LF. *)
Definition noCRLF (f : string) : Prop := crlfFree false f = true.

(** A record that is not written as an empty line. *)
Definition notBlank (row : list string) : Prop := row <> [] /\ row <> [""].

Definition goodRow (n : nat) (row : list string) : Prop :=
  notBlank row /\ Forall noCRLF row /\ length row = n.

(** The rows of sfn.csv. *)
Definition rawRows (records : SfnRecords) : list (list string) :=
  rawHeader :: map recordRow records.

(** A record whose name holds a carriage return followed by a line
    feed, as the type of [Name] allows. *)
Definition crlfName : string := "a" ++ String CR (String LF "b").
Definition crlfRecord : SfnRecord := mkSfnRecord crlfName "2024-01-01" (seconds 60) "SUCCEEDED".

(** The number of bytes [c] in [s], and whether there is one. *)
Fixpoint countByte (c : ascii) (s : string) : nat :=
  match s with
  | EmptyString => 0%nat
  | String b s' => ((if Ascii.eqb b c then 1 else 0) + countByte c s')%nat
  end.

Definition hasByte (c : ascii) (s : string) : bool := anyByte (fun b => Ascii.eqb b c) s.

(** An execution that has both timestamps. *)
Definition complete (e : Execution) : bool :=
  match exStartDate e, exStopDate e with
  | Some _, Some _ => true
  | _, _ => false
  end.

(** [r] is the record that the loop body builds for the execution [e]
    of [machine]. *)
Definition producedBy (machine : StateMachine) (e : Execution) (r : SfnRecord) : Prop :=
  exists start stop arn name status,
    exStartDate e = Some start /\ exStopDate e = Some stop
    /\ StateMachineArn machine = Some arn
    /\ Split arn colon !! 6%nat = Some name
    /\ exStatus e = Some status
    /\ r = mkSfnRecord name (Format_DateOnly start) (time.Sub stop start) status.

(** The records in [rs] are built, in order, from executions among [es]
    that appear in the same order. *)
Definition producedInOrder (machine : StateMachine) (es : list Execution) (rs : SfnRecords)
    : Prop :=
  exists kept, kept `sublist_of` es /\ Forall2 (producedBy machine) kept rs.

(** One day, as a [Duration]. *)
Definition Day : time.Duration := 86400 * time.Second.

Definition scenarioMachines : list StateMachine :=
  [mkStateMachine (Some arnA); mkStateMachine (Some arnB)].
Definition scenarioRecord : SfnRecord := mkSfnRecord "A" "2024-01-01" (seconds 60) "SUCCEEDED".

(** [k], written with padding to [w] digits, has exactly [w] bytes. *)
Definition padOK (w : nat) (k : nat) : bool :=
  (String.length (utoaPad (N.of_nat k) w) =? w)%nat.

(** The number of records in the groups of a list of map entries. *)
Definition groupSizes (groups : list (string * SfnRecords)) : nat :=
  sum_list_with (fun kv => length kv.2) groups.

(** * Properties *)

(** ** Machine integers *)

Lemma wrap64_range z : in_int64 (wrap64 z).
Proof.
  unfold in_int64, wrap64, minInt64, maxInt64.
  pose proof (Z.mod_pos_bound (z + 2 ^ 63) (2 ^ 64) ltac:(lia)). lia.
Qed.

Lemma wrap64_id z : in_int64 z -> wrap64 z = z.
Proof.
  unfold in_int64, wrap64, minInt64, maxInt64. intros H.
  rewrite Z.mod_small; lia.
Qed.

Lemma wrap64_congr a b : (a - b) mod 2 ^ 64 = 0 -> wrap64 a = wrap64 b.
Proof.
  unfold wrap64. intros H. f_equal.
  apply Z.mod_divide in H; [|lia]. destruct H as [k Hk].
  replace (a + 2 ^ 63) with (b + 2 ^ 63 + k * 2 ^ 64) by lia.
  apply Z.mod_add. lia.
Qed.

Lemma wrap64_diff z : exists k, wrap64 z = z + k * 2 ^ 64.
Proof.
  unfold wrap64. exists (- ((z + 2 ^ 63) / 2 ^ 64)).
  pose proof (Z.div_mod (z + 2 ^ 63) (2 ^ 64) ltac:(lia)). lia.
Qed.

Lemma wrap64_add_l a b : wrap64 (wrap64 a + b) = wrap64 (a + b).
Proof.
  apply wrap64_congr. destruct (wrap64_diff a) as [k ->].
  replace (a + k * 2 ^ 64 + b - (a + b)) with (k * 2 ^ 64) by lia.
  apply Z.mod_mul. lia.
Qed.

Lemma wrap64_add_r a b : wrap64 (a + wrap64 b) = wrap64 (a + b).
Proof. rewrite (Z.add_comm a), wrap64_add_l. f_equal. lia. Qed.

Lemma wrap64_mul_l a b : wrap64 (wrap64 a * b) = wrap64 (a * b).
Proof.
  apply wrap64_congr. destruct (wrap64_diff a) as [k ->].
  replace ((a + k * 2 ^ 64) * b - a * b) with (k * b * 2 ^ 64) by lia.
  apply Z.mod_mul. lia.
Qed.

(** ** Package time *)

Lemma sec_nsec t : time.sec t * time.Second + time.nsec t = time.instant t.
Proof.
  unfold time.sec, time.nsec, time.Second.
  pose proof (Z.div_mod (time.instant t) 1000000000 ltac:(lia)). lia.
Qed.

(** [Sub] is the exact difference of the instants, clamped to the range
    of [Duration]. *)
Lemma Sub_clamp t u :
  time.Sub t u = Z.max time.minDuration (Z.min time.maxDuration (time.instant t - time.instant u)).
Proof.
  unfold time.Sub.
  set (d := wrap64 _).
  assert (Hd : d = wrap64 (time.instant t - time.instant u)).
  { unfold d. rewrite wrap64_add_r, wrap64_add_l. apply wrap64_congr.
    destruct (wrap64_diff (time.sec t - time.sec u)) as [k ->].
    pose proof (sec_nsec t). pose proof (sec_nsec u).
    replace (_ - _) with (k * time.Second * 2 ^ 64) by lia.
    apply Z.mod_mul. lia. }
  pose proof (wrap64_range (time.instant t - time.instant u)) as Hr.
  rewrite <- Hd in Hr. unfold in_int64 in Hr.
  unfold time.Equal, time.Add, time.Before, time.minDuration, time.maxDuration. simpl.
  destruct (Z.eqb_spec (time.instant u + d) (time.instant t)) as [He|Hne].
  - lia.
  - assert (~ in_int64 (time.instant t - time.instant u)).
    { intros Hin. apply wrap64_id in Hin. lia. }
    unfold in_int64, minInt64, maxInt64 in *.
    destruct (Z.ltb_spec (time.instant t) (time.instant u)); lia.
Qed.

Lemma Sub_exact t u :
  in_int64 (time.instant t - time.instant u) ->
  time.Sub t u = time.instant t - time.instant u.
Proof.
  intros H. rewrite Sub_clamp.
  unfold in_int64, time.minDuration, time.maxDuration, minInt64, maxInt64 in *. lia.
Qed.

Lemma Sub_nonneg t u : time.instant u <= time.instant t -> 0 <= time.Sub t u.
Proof.
  intros H. rewrite Sub_clamp. unfold time.minDuration, time.maxDuration, minInt64, maxInt64. lia.
Qed.

(** The calendar conversions are inverse to each other, and a day number
    converts to a month in 1..12 and a day in 1..31. *)
Lemma civilFromDays_spec z :
  let '(y, m, d) := time.civilFromDays z in
  time.daysFromCivil y m d = z /\ 1 <= m <= 12 /\ 1 <= d <= 31.
Proof.
  unfold time.civilFromDays, time.daysFromCivil.
  set (z' := z + 719468).
  set (era := z' / 146097).
  set (doe := z' - era * 146097).
  assert (Hdoe : 0 <= doe < 146097).
  { unfold doe, era. pose proof (Z.div_mod z' 146097 ltac:(lia)).
    pose proof (Z.mod_pos_bound z' 146097 ltac:(lia)). lia. }
  set (yoe := (doe - doe / 1460 + doe / 36524 - doe / 146096) / 365).
  assert (Hyoe : 0 <= yoe < 400) by (unfold yoe; Z.div_mod_to_equations; lia).
  set (doy := doe - (365 * yoe + yoe / 4 - yoe / 100)).
  assert (Hdoy : 0 <= doy < 366) by (unfold doy, yoe; Z.div_mod_to_equations; lia).
  set (mp := (5 * doy + 2) / 153).
  assert (Hmp : 0 <= mp < 12) by (unfold mp; Z.div_mod_to_equations; lia).
  assert (Hera : (yoe + era * 400) / 400 = era) by (Z.div_mod_to_equations; lia).
  destruct (Z.ltb_spec mp 10).
  - destruct (Z.leb_spec (mp + 3) 2); [lia|].
    replace (mp + 3 - 3) with mp by lia. rewrite Hera.
    replace (yoe + era * 400 - era * 400) with yoe by lia.
    repeat split; try lia;
      unfold mp, doy in *; unfold z', doe in *; Z.div_mod_to_equations; lia.
  - destruct (Z.leb_spec (mp - 9) 2); [|lia].
    replace (mp - 9 + 9) with mp by lia.
    replace (yoe + era * 400 + 1 - 1) with (yoe + era * 400) by lia. rewrite Hera.
    replace (yoe + era * 400 - era * 400) with yoe by lia.
    repeat split; try lia;
      unfold mp, doy in *; unfold z', doe in *; Z.div_mod_to_equations; lia.
Qed.

(** Two months before 15 March 2024, 10:00:00.5 UTC, and two months
    before 30 April 2024 (there is no 30 February: the day overflows
    into March). *)
Example AddDate_two_months :
  time.AddDate (time.Date 2024 3 15 10 0 0 500000000 0) 0 (-2) 0
  = time.Date 2024 1 15 10 0 0 500000000 0.
Proof. reflexivity. Qed.

Example AddDate_overflow :
  time.AddDate (time.Date 2024 4 30 0 0 0 0 0) 0 (-2) 0 = time.Date 2024 3 1 0 0 0 0 0.
Proof. reflexivity. Qed.

Example Format_DateOnly_drops_clock :
  Format_DateOnly (time.Date 2024 1 1 23 59 59 999999999 0) = "2024-01-01".
Proof. reflexivity. Qed.

(** ** The transform step *)

(** The three ways in which the loop body completes. *)
Lemma transform_Done clock machine records tick e st :
  transform clock machine (records, tick) e = Done st ->
  ((exStartDate e = None \/ exStopDate e = None) /\ st = (records, tick))
  \/ (exists start stop,
        exStartDate e = Some start /\ exStopDate e = Some stop
        /\ time.Before start (cutoff clock tick) = true /\ st = (records, S tick))
  \/ (exists start stop arn name status,
        exStartDate e = Some start /\ exStopDate e = Some stop
        /\ time.Before start (cutoff clock tick) = false
        /\ StateMachineArn machine = Some arn
        /\ Split arn colon !! 6%nat = Some name
        /\ exStatus e = Some status
        /\ st = ((records ++ [mkSfnRecord name (Format_DateOnly start)
                                          (time.Sub stop start) status])%list, S tick)).
Proof.
  unfold transform, cutoff.
  destruct (exStartDate e) as [start|]; [|intros [= <-]; left; auto].
  destruct (exStopDate e) as [stop|]; [|intros [= <-]; left; auto].
  destruct (time.Before start _) eqn:Hb.
  - intros [= <-]. right; left. eauto 10.
  - destruct (StateMachineArn machine) as [arn|]; [|discriminate]. cbn.
    unfold index. destruct (Split arn colon !! 6%nat) as [name|] eqn:Hn; [|discriminate]. cbn.
    destruct (exStatus e) as [status|]; [|discriminate]. cbn.
    intros [= <-]. right; right. exists start, stop, arn, name, status. auto 10.
Qed.

Lemma transform_kept clock machine records tick e start stop arn name status :
  exStartDate e = Some start -> exStopDate e = Some stop ->
  time.Before start (cutoff clock tick) = false ->
  StateMachineArn machine = Some arn ->
  Split arn colon !! 6%nat = Some name ->
  exStatus e = Some status ->
  transform clock machine (records, tick) e
  = Done ((records ++ [mkSfnRecord name (Format_DateOnly start) (time.Sub stop start) status])%list,
          S tick).
Proof.
  intros Hs Ht Hb Ha Hn Hst. unfold transform, cutoff in *.
  rewrite Hs, Ht, Hb, Ha. cbn. unfold index. rewrite Hn. cbn. rewrite Hst. reflexivity.
Qed.

(** A record appended by the loop body is the one built from both
    timestamps of the execution. *)
Lemma transform_appended clock machine records tick e r tick' :
  transform clock machine (records, tick) e = Done ((records ++ [r])%list, tick') ->
  exists start stop arn name status,
    exStartDate e = Some start /\ exStopDate e = Some stop
    /\ time.Before start (cutoff clock tick) = false
    /\ StateMachineArn machine = Some arn
    /\ Split arn colon !! 6%nat = Some name
    /\ exStatus e = Some status
    /\ r = mkSfnRecord name (Format_DateOnly start) (time.Sub stop start) status.
Proof.
  intros H. apply transform_Done in H.
  destruct H as [[_ H]|[(start & stop & _ & _ & _ & H)|H]].
  - injection H as H _. apply (f_equal length) in H. rewrite length_app in H. simpl in H. lia.
  - injection H as H _. apply (f_equal length) in H. rewrite length_app in H. simpl in H. lia.
  - destruct H as (start & stop & arn & name & status & Hs & Ht & Hb & Ha & Hn & Hst & H).
    injection H as H _. apply app_inj_tail in H as [_ ->].
    exists start, stop, arn, name, status. auto 10.
Qed.

Example transform_sample :
  transform sampleClock sampleMachine ([], 0%nat) sampleExecution = Done ([sampleRecord], 1%nat).
Proof. reflexivity. Qed.

(** ** Formatting with two decimals *)

Lemma roundHalfEven_nearest n d :
  0 <= n -> 0 < d ->
  0 <= roundHalfEven n d /\ 2 * Z.abs (n - roundHalfEven n d * d) <= d.
Proof.
  intros Hn Hd. unfold roundHalfEven.
  pose proof (Z.div_mod n d ltac:(lia)) as Hq.
  pose proof (Z.mod_pos_bound n d Hd) as Hr.
  assert (0 <= n / d) by (apply Z.div_pos; lia).
  destruct (Z.compare_spec (2 * (n mod d)) d); [destruct (Z.even (n / d))|..]; nia.
Qed.

Lemma hundredths_nearest m e : nearestHundredth m e (hundredths m e).
Proof.
  unfold nearestHundredth, hundredths.
  destruct (Z.leb_spec 0 e) as [He|He].
  - rewrite Z.max_l, Z.max_r by lia. change (2 ^ 0) with 1.
    assert (0 < 2 ^ e) by (apply Z.pow_pos_nonneg; lia). nia.
  - rewrite Z.max_r, Z.max_l by lia. change (2 ^ 0) with 1.
    assert (0 < 2 ^ (- e)) by (apply Z.pow_pos_nonneg; lia).
    destruct (roundHalfEven_nearest (Z.pos m * 100) (2 ^ (- e))) as [H1 H2]; [lia|lia|].
    split; [exact H1|].
    replace (100 * Z.pos m * 1) with (Z.pos m * 100) by lia. exact H2.
Qed.

Lemma Sprintf_2f_rounded f : roundedTo2 f (Sprintf_2f f).
Proof.
  destruct f as [s|s| |s m e]; simpl; try reflexivity.
  exists (hundredths m e). split; [reflexivity|apply hundredths_nearest].
Qed.

Example Sprintf_2f_samples :
  durationToSeconfString 3661500000000 = "3661.50"
  /\ durationToSeconfString 0 = "0.00"
  /\ durationToSeconfString (-1) = "-0.00"
  /\ durationToSeconfString 4999999 = "0.00"
  /\ durationToSeconfString 5000000 = "0.01"
  /\ durationToSeconfString time.maxDuration = "9223372036.85".
Proof. repeat split. Qed.

(** ** Claims about the transform step *)

(** C1: a record produced by the transform step has as duration the
    stop timestamp minus the start timestamp (the exact difference of
    the two instants whenever that fits a [Duration]), as name the
    seventh colon-delimited field of the state machine's ARN, as start
    date the start timestamp in layout YYYY-MM-DD, and its duration
    string is its [Seconds()] rounded to two decimals, as in
    3661.5s giving 3661.50. *)
Theorem C1_record_fields clock machine records tick e r tick' :
  transform clock machine (records, tick) e = Done ((records ++ [r])%list, tick') ->
  exists start stop arn,
    exStartDate e = Some start /\ exStopDate e = Some stop
    /\ time.Before start (cutoff clock tick) = false
    /\ StateMachineArn machine = Some arn
    /\ Duration r = time.Sub stop start
    /\ (in_int64 (time.instant stop - time.instant start) ->
        Duration r = time.instant stop - time.instant start)
    /\ Split arn colon !! 6%nat = Some (Name r)
    /\ StartDate r = Format_DateOnly start
    /\ StringDurationSecond r = Sprintf_2f (Seconds (Duration r))
    /\ roundedTo2 (Seconds (Duration r)) (StringDurationSecond r)
    /\ (Duration r = 3661500000000 -> StringDurationSecond r = "3661.50").
Proof.
  intros H. apply transform_appended in H.
  destruct H as (start & stop & arn & name & status & Hs & Ht & Hb & Ha & Hn & Hst & ->).
  exists start, stop, arn. simpl.
  repeat split; auto.
  - apply Sub_exact.
  - apply Sprintf_2f_rounded.
  - unfold StringDurationSecond. simpl. intros ->. reflexivity.
Qed.

Lemma C1_record_fields_witness :
  exists start stop arn,
    exStartDate sampleExecution = Some start /\ exStopDate sampleExecution = Some stop
    /\ time.Before start (cutoff sampleClock 0) = false
    /\ StateMachineArn sampleMachine = Some arn
    /\ Duration sampleRecord = time.Sub stop start
    /\ (in_int64 (time.instant stop - time.instant start) ->
        Duration sampleRecord = time.instant stop - time.instant start)
    /\ Split arn colon !! 6%nat = Some (Name sampleRecord)
    /\ StartDate sampleRecord = Format_DateOnly start
    /\ StringDurationSecond sampleRecord = Sprintf_2f (Seconds (Duration sampleRecord))
    /\ roundedTo2 (Seconds (Duration sampleRecord)) (StringDurationSecond sampleRecord)
    /\ (Duration sampleRecord = 3661500000000 -> StringDurationSecond sampleRecord = "3661.50").
Proof.
  apply (C1_record_fields sampleClock sampleMachine [] 0%nat sampleExecution sampleRecord 1%nat).
  reflexivity.
Defined.

(** C3: an execution that started strictly before the cutoff, two
    calendar months before the current time, produces no record; one
    that started at the cutoff or later is kept. *)
Theorem C3_retention_cutoff clock machine records tick e start stop :
  exStartDate e = Some start -> exStopDate e = Some stop ->
  (time.instant start < time.instant (time.AddDate (clock tick) 0 (-2) 0) ->
   transform clock machine (records, tick) e = Done (records, S tick))
  /\ (time.instant (time.AddDate (clock tick) 0 (-2) 0) <= time.instant start ->
      forall arn name status,
        StateMachineArn machine = Some arn ->
        Split arn colon !! 6%nat = Some name ->
        exStatus e = Some status ->
        transform clock machine (records, tick) e
        = Done ((records ++ [mkSfnRecord name (Format_DateOnly start)
                                         (time.Sub stop start) status])%list, S tick)).
Proof.
  intros Hs Ht. split.
  - intros Hlt. unfold transform. rewrite Hs, Ht.
    unfold time.Before. destruct (Z.ltb_spec (time.instant start)
      (time.instant (time.AddDate (clock tick) 0 (-2) 0))); [reflexivity|lia].
  - intros Hle arn name status Ha Hn Hst.
    apply (transform_kept _ _ _ _ _ start stop arn name status); auto.
    unfold cutoff, time.Before. apply Z.ltb_ge. exact Hle.
Qed.

Lemma C3_retention_cutoff_witness :
  (time.instant boundaryStart < time.instant (time.AddDate (sampleClock 0%nat) 0 (-2) 0) ->
   transform sampleClock sampleMachine ([], 0%nat) boundaryExecution = Done ([], 1%nat))
  /\ transform sampleClock sampleMachine ([], 0%nat) boundaryExecution
     = Done ([mkSfnRecord "A" (Format_DateOnly boundaryStart)
                          (time.Sub sampleStop boundaryStart) "SUCCEEDED"], 1%nat).
Proof.
  destruct (C3_retention_cutoff sampleClock sampleMachine [] 0%nat boundaryExecution
              boundaryStart sampleStop eq_refl eq_refl) as [H1 H2].
  split; [exact H1|].
  apply (H2 ltac:(vm_compute; discriminate) sampleArn "A" "SUCCEEDED"); reflexivity.
Defined.

(** C4: an execution without start timestamp or without stop timestamp
    produces no record: the loop body leaves the record list (and the
    clock) as they were. *)
Theorem C4_missing_timestamp_skipped clock machine records tick e :
  exStartDate e = None \/ exStopDate e = None ->
  transform clock machine (records, tick) e = Done (records, tick).
Proof.
  intros [H|H]; unfold transform; rewrite H; [reflexivity|].
  destruct (exStartDate e); reflexivity.
Qed.

Lemma C4_missing_timestamp_skipped_witness :
  transform sampleClock sampleMachine ([sampleRecord], 1%nat)
            (mkExecution (Some sampleStart) None (Some "RUNNING"))
  = Done ([sampleRecord], 1%nat).
Proof.
  apply (C4_missing_timestamp_skipped sampleClock sampleMachine [sampleRecord] 1%nat
           (mkExecution (Some sampleStart) None (Some "RUNNING"))).
  right. reflexivity.
Defined.

(** C6 as stated fails: the transform step does not compare the two
    timestamps, and a stop before the start gives a negative duration. *)
Lemma C6_negative_duration :
  ~ (forall clock machine records tick e r tick',
       transform clock machine (records, tick) e = Done ((records ++ [r])%list, tick') ->
       0 <= Duration r).
Proof.
  intros H.
  specialize (H sampleClock sampleMachine [] 0%nat backwardsExecution
                (mkSfnRecord "A" "2024-01-01" (-3661500000000) "FAILED") 1%nat eq_refl).
  simpl in H. lia.
Qed.

(** C6, amended: every record created by the transform step comes from
    an execution that has both timestamps, its duration is the stop
    timestamp minus the start timestamp, and the duration is not
    negative whenever the stop timestamp is not earlier than the start
    timestamp. *)
Theorem C6_duration_nonneg clock machine records tick e r tick' :
  transform clock machine (records, tick) e = Done ((records ++ [r])%list, tick') ->
  exists start stop,
    exStartDate e = Some start /\ exStopDate e = Some stop
    /\ Duration r = time.Sub stop start
    /\ (time.instant start <= time.instant stop -> 0 <= Duration r).
Proof.
  intros H. apply transform_appended in H.
  destruct H as (start & stop & arn & name & status & Hs & Ht & _ & _ & _ & _ & ->).
  exists start, stop. simpl. repeat split; auto.
  apply Sub_nonneg.
Qed.

Lemma C6_duration_nonneg_witness :
  exists start stop,
    exStartDate sampleExecution = Some start /\ exStopDate sampleExecution = Some stop
    /\ Duration sampleRecord = time.Sub stop start
    /\ (time.instant start <= time.instant stop -> 0 <= Duration sampleRecord).
Proof.
  apply (C6_duration_nonneg sampleClock sampleMachine [] 0%nat sampleExecution sampleRecord 1%nat).
  reflexivity.
Defined.

(** ** Statistics of a group *)

Lemma fold_max_spec (g : SfnRecords) (init : Z) :
  let m := fold_left (fun max record => if Duration record >? max then Duration record else max)
                     g init in
  init <= m /\ (forall d, d ∈ durations g -> d <= m) /\ (m = init \/ m ∈ durations g).
Proof.
  revert init. induction g as [|r g IH]; intros init; simpl.
  - split; [lia|]. split; [|auto]. intros d Hd. inversion Hd.
  - specialize (IH (if Duration r >? init then Duration r else init)).
    simpl in IH. destruct IH as (H1 & H2 & H3).
    destruct (Z.gtb_spec (Duration r) init) as [Hgt|Hle].
    + split; [lia|]. split.
      * intros d Hd. apply elem_of_cons in Hd as [->|Hd]; auto.
      * right. destruct H3 as [->|H3]; [left|right]; auto.
    + split; [lia|]. split.
      * intros d Hd. apply elem_of_cons in Hd as [->|Hd]; [lia|auto].
      * destruct H3 as [H3|H3]; [left; exact H3|right; right; exact H3].
Qed.

Lemma fold_min_spec (g : SfnRecords) (init : Z) :
  let m := fold_left (fun min record => if Duration record <? min then Duration record else min)
                     g init in
  m <= init /\ (forall d, d ∈ durations g -> m <= d) /\ (m = init \/ m ∈ durations g).
Proof.
  revert init. induction g as [|r g IH]; intros init; simpl.
  - split; [lia|]. split; [|auto]. intros d Hd. inversion Hd.
  - specialize (IH (if Duration r <? init then Duration r else init)).
    simpl in IH. destruct IH as (H1 & H2 & H3).
    destruct (Z.ltb_spec (Duration r) init) as [Hlt|Hge].
    + split; [lia|]. split.
      * intros d Hd. apply elem_of_cons in Hd as [->|Hd]; auto.
      * right. destruct H3 as [->|H3]; [left|right]; auto.
    + split; [lia|]. split.
      * intros d Hd. apply elem_of_cons in Hd as [->|Hd]; [lia|auto].
      * destruct H3 as [H3|H3]; [left; exact H3|right; right; exact H3].
Qed.

Lemma MaxDuration_spec g :
  g <> [] ->
  exists max, MaxDuration g = Done max /\ max ∈ durations g /\ forall d, d ∈ durations g -> d <= max.
Proof.
  destruct g as [|r0 g]; [congruence|]. intros _.
  unfold MaxDuration, index. cbn [lookup list_lookup mbind result_bind].
  eexists. split; [reflexivity|].
  destruct (fold_max_spec (r0 :: g) (Duration r0)) as (H1 & H2 & H3).
  split; [|exact H2].
  destruct H3 as [->|H3]; [left|exact H3].
Qed.

Lemma MinDuration_spec g :
  g <> [] ->
  exists min, MinDuration g = Done min /\ min ∈ durations g /\ forall d, d ∈ durations g -> min <= d.
Proof.
  destruct g as [|r0 g]; [congruence|]. intros _.
  unfold MinDuration, index. cbn [lookup list_lookup mbind result_bind].
  eexists. split; [reflexivity|].
  destruct (fold_min_spec (r0 :: g) (Duration r0)) as (H1 & H2 & H3).
  split; [|exact H2].
  destruct H3 as [->|H3]; [left|exact H3].
Qed.

Lemma fold_total_spec (g : SfnRecords) (a : Z) :
  fold_left (fun total record => wrap64 (total + Duration record)) g (wrap64 a)
  = wrap64 (a + sumDurations g).
Proof.
  revert a. induction g as [|r g IH]; intros a.
  - simpl. f_equal. unfold sumDurations. simpl. lia.
  - simpl. rewrite wrap64_add_l, IH. f_equal. unfold sumDurations. simpl. lia.
Qed.

(** The running total is the exact sum reduced to 64 bits. *)
Lemma totalDuration_spec g : totalDuration g = wrap64 (sumDurations g).
Proof.
  unfold totalDuration. replace 0 with (wrap64 0) at 1 by reflexivity.
  rewrite fold_total_spec. reflexivity.
Qed.

Lemma AvgDuration_spec g :
  g <> [] ->
  AvgDuration g = Done (Z.quot (wrap64 (sumDurations g)) (Z.of_nat (length g))).
Proof.
  intros Hg. unfold AvgDuration. rewrite totalDuration_spec.
  destruct (Z.eqb_spec (Z.of_nat (length g)) 0) as [H0|_]; [|reflexivity].
  destruct g; [congruence|]. simpl in H0. lia.
Qed.

Lemma sum_bounds (l : list Z) (lo hi : Z) :
  (forall d, d ∈ l -> lo <= d <= hi) ->
  Z.of_nat (length l) * lo <= foldr Z.add 0 l <= Z.of_nat (length l) * hi.
Proof.
  induction l as [|d l IH]; intros H.
  - simpl. lia.
  - assert (lo <= d <= hi) by (apply H; left).
    assert (Z.of_nat (length l) * lo <= foldr Z.add 0 l <= Z.of_nat (length l) * hi)
      by (apply IH; intros d' Hd'; apply H; right; exact Hd').
    cbn [foldr length]. lia.
Qed.

(** Truncated division keeps a quotient between integer bounds. *)
Lemma quot_between (s n lo hi : Z) :
  0 < n -> n * lo <= s <= n * hi -> lo <= Z.quot s n <= hi.
Proof.
  intros Hn [Hlo Hhi].
  pose proof (Z.quot_rem s n ltac:(lia)) as Hqr.
  set (q := Z.quot s n) in *. set (r := Z.rem s n) in *.
  assert (Hr : (0 <= s -> 0 <= r < n) /\ (s < 0 -> - n < r <= 0)).
  { split; intros Hs.
    - apply Z.rem_bound_pos; lia.
    - pose proof (Z.rem_bound_pos (- s) n ltac:(lia) Hn) as Hb.
      rewrite Z.rem_opp_l in Hb by lia. unfold r. lia. }
  destruct Hr as [Hp Hm].
  split.
  - apply Z.lt_succ_r. apply (Z.mul_lt_mono_pos_l n); lia.
  - apply Z.lt_succ_r. apply (Z.mul_lt_mono_pos_l n); lia.
Qed.

(** ** Grouping *)

Lemma aggregated_fold name (r : SfnRecords) (m : gmap string SfnRecords) :
  fold_left (fun m record => <[Name record := (default [] (m !! Name record) ++ [record])%list]> m)
            r m !! name
  = match m !! name with
    | Some g0 => Some (g0 ++ groupOf name r)%list
    | None => match groupOf name r with [] => None | g => Some g end
    end.
Proof.
  revert m. induction r as [|x r IH]; intros m.
  - simpl. destruct (m !! name); [rewrite app_nil_r|]; reflexivity.
  - cbn [fold_left]. rewrite IH. unfold groupOf.
    destruct (decide (Name x = name)) as [Heq|Hne].
    + rewrite filter_cons_True by exact Heq. rewrite Heq, lookup_insert_eq.
      destruct (m !! name) as [g0|]; simpl.
      * rewrite <- app_assoc. reflexivity.
      * reflexivity.
    + rewrite lookup_insert_ne, filter_cons_False by assumption. reflexivity.
Qed.

Lemma aggregated_lookup name r :
  aggregated r !! name = match groupOf name r with [] => None | g => Some g end.
Proof. unfold aggregated. rewrite aggregated_fold, lookup_empty. reflexivity. Qed.

Lemma aggregated_Some name r g :
  aggregated r !! name = Some g -> g = groupOf name r /\ g <> [].
Proof.
  rewrite aggregated_lookup. destruct (groupOf name r) as [|x g']; [discriminate|].
  intros [= <-]. split; [reflexivity|discriminate].
Qed.

Lemma aggregateRow_spec name g max min avg :
  MaxDuration g = Done max -> MinDuration g = Done min -> AvgDuration g = Done avg ->
  aggregateRow name g
  = Done [name; durationToSeconfString max; durationToSeconfString min;
          durationToSeconfString avg; Sprintf_d (Len g)].
Proof. intros H1 H2 H3. unfold aggregateRow. rewrite H1, H2, H3. reflexivity. Qed.

(** C2: aggregation maps each name to the records of that name in list
    order; for a group, max is the largest and min the smallest duration
    of the group, avg is the sum of the durations (a 64-bit [Duration])
    divided by the count, count is the number of records; durations of
    10s, 20s and 30s give the row 30.00, 10.00, 20.00, 3. *)
Theorem C2_groups_and_statistics (records : SfnRecords) (name : string) (g : SfnRecords) :
  g = filter (fun x => Name x = name) records -> g <> [] ->
  aggregated records !! name = Some g
  /\ exists max min avg,
       MaxDuration g = Done max /\ MinDuration g = Done min /\ AvgDuration g = Done avg
       /\ max ∈ durations g /\ (forall d, d ∈ durations g -> d <= max)
       /\ min ∈ durations g /\ (forall d, d ∈ durations g -> min <= d)
       /\ avg = Z.quot (wrap64 (sumDurations g)) (Z.of_nat (length g))
       /\ (in_int64 (sumDurations g) -> avg = Z.quot (sumDurations g) (Z.of_nat (length g)))
       /\ Len g = Z.of_nat (length g)
       /\ aggregateRow name g
          = Done [name; durationToSeconfString max; durationToSeconfString min;
                  durationToSeconfString avg; Sprintf_d (Len g)]
       /\ (durations g = [seconds 10; seconds 20; seconds 30] ->
           aggregateRow name g = Done [name; "30.00"; "10.00"; "20.00"; "3"]).
Proof.
  intros Hg Hne. split.
  - rewrite aggregated_lookup. fold (groupOf name records) in Hg. rewrite <- Hg.
    destruct g; [congruence|reflexivity].
  - destruct (MaxDuration_spec g Hne) as (max & Hmax & Hmax1 & Hmax2).
    destruct (MinDuration_spec g Hne) as (min & Hmin & Hmin1 & Hmin2).
    pose proof (AvgDuration_spec g Hne) as Havg.
    exists max, min, (Z.quot (wrap64 (sumDurations g)) (Z.of_nat (length g))).
    repeat split; auto.
    + intros Hin. rewrite wrap64_id by exact Hin. reflexivity.
    + apply aggregateRow_spec; assumption.
    + intros Hd. unfold aggregateRow, MaxDuration, MinDuration, AvgDuration, totalDuration, Len.
      destruct g as [|a [|b [|c [|? ?]]]]; try discriminate.
      injection Hd as Ha Hb Hc. cbn. rewrite Ha, Hb, Hc. reflexivity.
Qed.

Lemma C2_groups_and_statistics_witness :
  aggregated sampleRecords !! "A" = Some [recA10; recA20; recA30]
  /\ exists max min avg,
       MaxDuration [recA10; recA20; recA30] = Done max
       /\ MinDuration [recA10; recA20; recA30] = Done min
       /\ AvgDuration [recA10; recA20; recA30] = Done avg
       /\ max ∈ durations [recA10; recA20; recA30]
       /\ (forall d, d ∈ durations [recA10; recA20; recA30] -> d <= max)
       /\ min ∈ durations [recA10; recA20; recA30]
       /\ (forall d, d ∈ durations [recA10; recA20; recA30] -> min <= d)
       /\ avg = Z.quot (wrap64 (sumDurations [recA10; recA20; recA30])) (Z.of_nat 3)
       /\ (in_int64 (sumDurations [recA10; recA20; recA30]) ->
           avg = Z.quot (sumDurations [recA10; recA20; recA30]) (Z.of_nat 3))
       /\ Len [recA10; recA20; recA30] = Z.of_nat 3
       /\ aggregateRow "A" [recA10; recA20; recA30]
          = Done ["A"; durationToSeconfString max; durationToSeconfString min;
                  durationToSeconfString avg; Sprintf_d (Len [recA10; recA20; recA30])]
       /\ (durations [recA10; recA20; recA30] = [seconds 10; seconds 20; seconds 30] ->
           aggregateRow "A" [recA10; recA20; recA30] = Done ["A"; "30.00"; "10.00"; "20.00"; "3"]).
Proof.
  apply (C2_groups_and_statistics sampleRecords "A" [recA10; recA20; recA30]).
  - reflexivity.
  - discriminate.
Defined.

(** On an empty list the statistics panic: the first element is read,
    and the length is the divisor. *)
Example MaxDuration_empty : MaxDuration [] = Panicked IndexOutOfRange.
Proof. reflexivity. Qed.

Example MinDuration_empty : MinDuration [] = Panicked IndexOutOfRange.
Proof. reflexivity. Qed.

Example AvgDuration_empty : AvgDuration [] = Panicked DivideByZero.
Proof. reflexivity. Qed.

Lemma aggregateRow_Done name g : g <> [] -> exists row, aggregateRow name g = Done row.
Proof.
  intros Hne.
  destruct (MaxDuration_spec g Hne) as (max & Hmax & _).
  destruct (MinDuration_spec g Hne) as (min & Hmin & _).
  eexists. apply (aggregateRow_spec name g max min _ Hmax Hmin (AvgDuration_spec g Hne)).
Qed.

Lemma aggregateRows_Done (groups : list (string * SfnRecords)) :
  (forall k g, (k, g) ∈ groups -> g <> []) -> exists rows, aggregateRows groups = Done rows.
Proof.
  induction groups as [|[k g] groups IH]; intros H.
  - exists []. reflexivity.
  - destruct (aggregateRow_Done k g) as [row Hrow]; [apply (H k); left|].
    destruct IH as [rows Hrows]; [intros k' g' Hin; apply (H k'); right; exact Hin|].
    exists (row :: rows). simpl. rewrite Hrow. cbn. rewrite Hrows. reflexivity.
Qed.

(** C7: every group of the aggregation holds at least one record, so
    the maximum, minimum and average of a group are computed without
    reading past the end of an empty list and without dividing by zero,
    and writing the aggregate rows never panics. *)
Theorem C7_groups_nonempty (records : SfnRecords) (name : string) (g : SfnRecords) :
  aggregated records !! name = Some g ->
  g <> []
  /\ (exists max min avg,
        MaxDuration g = Done max /\ MinDuration g = Done min /\ AvgDuration g = Done avg)
  /\ (exists row, aggregateRow name g = Done row)
  /\ (forall env fs, rangeOrder_ok env -> exists out, aggregate env records fs = Done out).
Proof.
  intros H. apply aggregated_Some in H as [_ Hne].
  split; [exact Hne|]. split; [|split].
  - destruct (MaxDuration_spec g Hne) as (max & Hmax & _).
    destruct (MinDuration_spec g Hne) as (min & Hmin & _).
    exists max, min. eexists. repeat split; eauto using AvgDuration_spec.
  - apply aggregateRow_Done, Hne.
  - intros env fs Hok. unfold aggregate, createAggregateCsvFile.
    destruct (aggregateRows_Done (rangeOrder env (aggregated records))) as [rows ->].
    + intros k g' Hin. rewrite (Hok (aggregated records)) in Hin.
      apply elem_of_map_to_list in Hin. apply aggregated_Some in Hin as [_ Hg']. exact Hg'.
    + cbn. eexists. reflexivity.
Qed.

Lemma C7_groups_nonempty_witness :
  [recA10; recA20; recA30] <> []
  /\ (exists max min avg,
        MaxDuration [recA10; recA20; recA30] = Done max
        /\ MinDuration [recA10; recA20; recA30] = Done min
        /\ AvgDuration [recA10; recA20; recA30] = Done avg)
  /\ (exists row, aggregateRow "A" [recA10; recA20; recA30] = Done row)
  /\ (forall env fs, rangeOrder_ok env -> exists out, aggregate env sampleRecords fs = Done out).
Proof.
  apply (C7_groups_nonempty sampleRecords "A" [recA10; recA20; recA30]).
  reflexivity.
Defined.

(** ** The average *)

Example transform_long :
  forEach (transform sampleClock sampleMachine) [longExecution; longExecution] ([], 0%nat)
  = Done ([longRecord; longRecord], 2%nat).
Proof. reflexivity. Qed.

(** C9 as stated fails: the sum of two durations of 150 years wraps
    around to a negative [Duration], and the average lies below the
    minimum. *)
Lemma C9_average_below_minimum :
  ~ (forall g min avg max,
       g <> [] ->
       MinDuration g = Done min -> AvgDuration g = Done avg -> MaxDuration g = Done max ->
       min <= avg <= max).
Proof.
  intros H.
  specialize (H [longRecord; longRecord] 4733596800000000000 (-4489775236854775808)
                4733596800000000000 ltac:(discriminate) eq_refl eq_refl eq_refl).
  lia.
Qed.

(** C9, amended: for a non-empty group whose sum of durations fits the
    64-bit range of [Duration], the minimum is at most the average and
    the average at most the maximum. *)
Theorem C9_min_avg_max (g : SfnRecords) :
  g <> [] -> in_int64 (sumDurations g) ->
  exists min avg max,
    MinDuration g = Done min /\ AvgDuration g = Done avg /\ MaxDuration g = Done max
    /\ min <= avg <= max.
Proof.
  intros Hne Hin.
  destruct (MaxDuration_spec g Hne) as (max & Hmax & _ & Hmax2).
  destruct (MinDuration_spec g Hne) as (min & Hmin & _ & Hmin2).
  exists min, (Z.quot (wrap64 (sumDurations g)) (Z.of_nat (length g))), max.
  repeat split; auto using AvgDuration_spec; rewrite wrap64_id by exact Hin.
  - apply (quot_between _ _ min max).
    + destruct g; [congruence|simpl; lia].
    + unfold sumDurations. replace (length g) with (length (durations g))
        by (unfold durations; apply length_map).
      apply sum_bounds. intros d Hd. split; auto.
  - apply (quot_between _ _ min max).
    + destruct g; [congruence|simpl; lia].
    + unfold sumDurations. replace (length g) with (length (durations g))
        by (unfold durations; apply length_map).
      apply sum_bounds. intros d Hd. split; auto.
Qed.

Lemma C9_min_avg_max_witness :
  exists min avg max,
    MinDuration [recA10; recA20; recA30] = Done min
    /\ AvgDuration [recA10; recA20; recA30] = Done avg
    /\ MaxDuration [recA10; recA20; recA30] = Done max
    /\ min <= avg <= max.
Proof.
  apply (C9_min_avg_max [recA10; recA20; recA30]).
  - discriminate.
  - vm_compute. split; discriminate.
Defined.

(** The average of [tieGroup] is truncated to 0.125s, a float64 without
    rounding error and a tie between 0.12 and 0.13, which is written
    0.12; the exact average 0.1250000005s lies above the tie. *)
Example tieGroup_average :
  AvgDuration tieGroup = Done 125000000
  /\ durationToSeconfString 125000000 = "0.12"
  /\ Seconds 125000000 = S754_finite false 4503599627370496 (-55)
  /\ 2 * 125000000 < sumDurations tieGroup < 2 * 135000000
  /\ exactAvgString tieGroup = "0.13".
Proof. repeat split. Qed.

(** C5 as stated fails: the truncation of the average changes the
    string that is written. *)
Lemma C5_truncation_changes_output :
  ~ (forall g avg,
       g <> [] -> AvgDuration g = Done avg ->
       durationToSeconfString avg = exactAvgString g).
Proof.
  intros H.
  specialize (H tieGroup 125000000 ltac:(discriminate) eq_refl).
  vm_compute in H. discriminate.
Qed.

(** C5, amended: for a non-empty group whose sum of durations fits the
    64-bit range, the average is the sum divided by the count and
    truncated toward zero to whole nanoseconds: it is less than one
    nanosecond away from the exact average, not larger in magnitude,
    exact when the count divides the sum, and the string written is the
    two-decimal formatting of this truncated duration. *)
Theorem C5_truncated_average (g : SfnRecords) (name : string) :
  g <> [] -> in_int64 (sumDurations g) ->
  exists max min avg,
    MaxDuration g = Done max /\ MinDuration g = Done min /\ AvgDuration g = Done avg
    /\ Z.abs (sumDurations g - Z.of_nat (length g) * avg) < Z.of_nat (length g)
    /\ Z.abs (Z.of_nat (length g) * avg) <= Z.abs (sumDurations g)
    /\ ((Z.of_nat (length g) | sumDurations g) -> Z.of_nat (length g) * avg = sumDurations g)
    /\ aggregateRow name g
       = Done [name; durationToSeconfString max; durationToSeconfString min;
               durationToSeconfString avg; Sprintf_d (Len g)].
Proof.
  intros Hne Hin.
  destruct (MaxDuration_spec g Hne) as (max & Hmax & _).
  destruct (MinDuration_spec g Hne) as (min & Hmin & _).
  pose proof (AvgDuration_spec g Hne) as Havg. rewrite wrap64_id in Havg by exact Hin.
  exists max, min, (Z.quot (sumDurations g) (Z.of_nat (length g))).
  assert (Hn : 0 < Z.of_nat (length g)) by (destruct g; [congruence|simpl; lia]).
  set (n := Z.of_nat (length g)) in *. set (s := sumDurations g) in *.
  pose proof (Z.quot_rem s n ltac:(lia)) as Hqr.
  pose proof (Z.rem_bound_abs s n ltac:(lia)) as Hrb.
  assert (Hsign : 0 <= Z.rem s n * s) by (apply Z.rem_sign_mul; lia).
  repeat split; auto.
  - replace (s - n * Z.quot s n) with (Z.rem s n) by lia. lia.
  - destruct (Z_le_gt_dec 0 s) as [Hs|Hs].
    + pose proof (Z.mul_quot_le s n Hs ltac:(lia)). lia.
    + pose proof (Z.mul_quot_ge s n ltac:(lia) ltac:(lia)). lia.
  - intros [k Hk]. rewrite Hk at 1. rewrite Z.quot_mul by lia. lia.
  - apply aggregateRow_spec; assumption.
Qed.

Lemma C5_truncated_average_witness :
  exists max min avg,
    MaxDuration tieGroup = Done max /\ MinDuration tieGroup = Done min
    /\ AvgDuration tieGroup = Done avg
    /\ Z.abs (sumDurations tieGroup - Z.of_nat (length tieGroup) * avg)
       < Z.of_nat (length tieGroup)
    /\ Z.abs (Z.of_nat (length tieGroup) * avg) <= Z.abs (sumDurations tieGroup)
    /\ ((Z.of_nat (length tieGroup) | sumDurations tieGroup) ->
        Z.of_nat (length tieGroup) * avg = sumDurations tieGroup)
    /\ aggregateRow "A" tieGroup
       = Done ["A"; durationToSeconfString max; durationToSeconfString min;
               durationToSeconfString avg; Sprintf_d (Len tieGroup)].
Proof.
  apply (C5_truncated_average tieGroup "A").
  - discriminate.
  - vm_compute. split; discriminate.
Defined.

(** ** The empty report *)

Lemma writeFile_ok env path content fs :
  createError env path = None -> writeError env path = None ->
  writeFile env path content fs = inr (<[path := content]> fs).
Proof. intros H1 H2. unfold writeFile. rewrite H1, H2. reflexivity. Qed.

(** C10: when no record is produced, [main] still completes: sfn.csv
    holds only the header row Name,StartDate,Duration,Status, the
    aggregation is the empty map, and aggregate.csv holds only the
    header row Name,Max,Min,Avg,Len. *)
Theorem C10_empty_record_list (env : Env) (profile : string) (fs : FS)
    (machines : list StateMachine) (n : nat) :
  profile <> "" ->
  newSession env profile = None ->
  ListStateMachines env = inr machines ->
  fetch env machines = Done ([], n) ->
  createError env "sfn.csv" = None -> writeError env "sfn.csv" = None ->
  createError env "aggregate.csv" = None -> writeError env "aggregate.csv" = None ->
  rangeOrder_ok env ->
  aggregated [] = ∅
  /\ exists fs',
       main env profile fs = Done fs'
       /\ fs' !! "sfn.csv" = Some ("Name,StartDate,Duration,Status" ++ NL)
       /\ fs' !! "aggregate.csv" = Some ("Name,Max,Min,Avg,Len" ++ NL).
Proof.
  intros Hp Hs Hl Hf Hc1 Hw1 Hc2 Hw2 Hok.
  split; [reflexivity|].
  assert (Hr : rangeOrder env (aggregated []) = []).
  { apply Permutation_nil_r. rewrite (Hok (aggregated [])). reflexivity. }
  eexists. split; [|split].
  - unfold main. apply String.eqb_neq in Hp. rewrite Hp, Hs, Hl. cbn.
    rewrite Hf. cbn. unfold createCsvFile. rewrite writeFile_ok by assumption. cbn.
    unfold aggregate, createAggregateCsvFile. rewrite Hr. cbn.
    rewrite writeFile_ok by assumption. cbn. reflexivity.
  - rewrite lookup_insert_ne by discriminate. rewrite lookup_insert_eq. reflexivity.
  - rewrite lookup_insert_eq. reflexivity.
Qed.

Lemma C10_empty_record_list_witness :
  aggregated [] = ∅
  /\ exists fs',
       main quietEnv "default" ∅ = Done fs'
       /\ fs' !! "sfn.csv" = Some ("Name,StartDate,Duration,Status" ++ NL)
       /\ fs' !! "aggregate.csv" = Some ("Name,Max,Min,Avg,Len" ++ NL).
Proof.
  apply (C10_empty_record_list quietEnv "default" ∅ [] 0%nat); try reflexivity.
  - discriminate.
  - intros m. reflexivity.
Defined.

(** ** Reading back what the Writer wrote *)

(** *** Strings *)

#[local] Arguments String.append !s1 s2 : simpl nomatch.

Lemma sapp_nil_r (a : string) : a ++ "" = a.
Proof. induction a as [|c a IH]; simpl; [reflexivity|f_equal; exact IH]. Qed.

Lemma sapp_assoc (a b c : string) : (a ++ b) ++ c = a ++ (b ++ c).
Proof. induction a as [|x a IH]; simpl; [reflexivity|f_equal; exact IH]. Qed.

Lemma length_sapp (a b : string) :
  String.length (a ++ b) = (String.length a + String.length b)%nat.
Proof. induction a as [|x a IH]; simpl; [reflexivity|f_equal; exact IH]. Qed.

Lemma stake_sapp (f t : string) : stake (String.length f) (f ++ t) = f.
Proof. induction f as [|c f IH]; simpl; [destruct t; reflexivity|f_equal; exact IH]. Qed.

Lemma sdrop_sapp (f t : string) : sdrop (String.length f) (f ++ t) = t.
Proof. induction f as [|c f IH]; simpl; [destruct t; reflexivity|exact IH]. Qed.

Lemma anyByte_sapp p (a b : string) : anyByte p (a ++ b) = anyByte p a || anyByte p b.
Proof.
  induction a as [|c a IH]; simpl; [reflexivity|].
  rewrite <- orb_assoc. f_equal. exact IH.
Qed.

(** *** Lines *)

Lemma ReadSlice_hasLF s : hasLF s = true -> snd (ReadSlice s) = false.
Proof.
  unfold hasLF. induction s as [|c s IH]; simpl; [discriminate|].
  destruct (Ascii.eqb c LF); simpl; [reflexivity|].
  intros H. specialize (IH H). destruct (ReadSlice s) as [[l r] e]. exact IH.
Qed.

Lemma ReadSlice_line_nonempty c s line rest e :
  ReadSlice (String c s) = (line, rest, e) -> line <> "".
Proof.
  simpl. destruct (Ascii.eqb c LF); [intros [= <- _ _]; discriminate|].
  destruct (ReadSlice s) as [[l r] e']. intros [= <- _ _]. discriminate.
Qed.

Lemma lengthNL_le1 line : (lengthNL line <= 1)%nat.
Proof.
  induction line as [|c line IH]; simpl; [lia|].
  destruct line; [destruct (Ascii.eqb c LF); lia|exact IH].
Qed.

Lemma ReadSlice_empty_line s rest e : ReadSlice s = ("", rest, e) -> e = true.
Proof.
  destruct s as [|c s]; simpl; [intros [= _ <-]; reflexivity|].
  destruct (Ascii.eqb c LF); [discriminate|].
  destruct (ReadSlice s) as [[l r] e']. discriminate.
Qed.

Lemma ReadSlice_single s c rest : ReadSlice s = (String c "", rest, false) -> c = LF.
Proof.
  destruct s as [|c' s]; simpl; [discriminate|].
  destruct (Ascii.eqb_spec c' LF) as [->|Hne]; [intros [= <- _]; reflexivity|].
  destruct (ReadSlice s) as [[l r] e'] eqn:E. intros [= _ -> _ ->].
  apply ReadSlice_empty_line in E. discriminate.
Qed.

(** A line cut from input without CR LF is left as it is. *)
Lemma normalizeCRLF_clean s b line rest :
  crlfFree b s = true -> ReadSlice s = (line, rest, false) -> normalizeCRLF line = line.
Proof.
  revert b line rest. induction s as [|c s IH]; intros b line rest Hc Hr.
  - discriminate.
  - simpl in Hr, Hc. destruct (Ascii.eqb_spec c LF) as [->|Hne].
    + injection Hr as <- _. reflexivity.
    + destruct (ReadSlice s) as [[l r] e] eqn:E. injection Hr as <- <- ->.
      specialize (IH _ l r Hc eq_refl).
      cbn [normalizeCRLF]. destruct l as [|c2 l2]; [reflexivity|].
      destruct l2 as [|c3 l3].
      * pose proof (ReadSlice_single _ _ _ E) as ->.
        destruct s as [|c' s']; [discriminate|]. simpl in E.
        destruct (Ascii.eqb_spec c' LF) as [->|Hne'].
        -- simpl in Hc. destruct (Ascii.eqb c CR); [discriminate|reflexivity].
        -- destruct (ReadSlice s') as [[l' r'] e']. injection E as E1 _. congruence.
      * rewrite IH. reflexivity.
Qed.

Lemma readLine_clean s :
  crlfFree false s = true -> hasLF s = true -> readLine s = ReadSlice s.
Proof.
  intros Hc Hl. unfold readLine. pose proof (ReadSlice_hasLF s Hl) as He.
  destruct (ReadSlice s) as [[line rest] e] eqn:E. simpl in He. subst e.
  rewrite andb_false_r. rewrite (normalizeCRLF_clean s false line rest Hc E). reflexivity.
Qed.

(** *** The bytes of a record *)

Lemma writeFields_tail n fs more :
  (writeFields (S n) fs ++ String LF "") ++ more = tailStream fs more.
Proof.
  revert n. induction fs as [|f fs IH]; intros n.
  - reflexivity.
  - cbn [writeFields tailStream]. change (0 <? S n)%nat with true. cbn iota.
    change (String comma "" ++ writeField f ++ writeFields (S (S n)) fs)
      with (String comma (writeField f ++ writeFields (S (S n)) fs)).
    rewrite <- (IH (S n)). simpl. f_equal. rewrite !sapp_assoc. reflexivity.
Qed.

Lemma csvWrite_stream f fs more :
  csvWrite (f :: fs) ++ more = writeField f ++ tailStream fs more.
Proof.
  unfold csvWrite. cbn [writeFields]. change (0 <? 0)%nat with false. cbn iota.
  change ("" ++ writeField f ++ writeFields 1 fs) with (writeField f ++ writeFields 1 fs).
  rewrite <- (writeFields_tail 0). rewrite !sapp_assoc. reflexivity.
Qed.

Lemma hasLF_tailStream a fs more : hasLF (a ++ tailStream fs more) = true.
Proof.
  unfold hasLF. rewrite anyByte_sapp. apply orb_true_iff. right.
  revert a. induction fs as [|f fs IH]; intros a; simpl; [reflexivity|].
  rewrite anyByte_sapp, (IH ""). apply orb_true_r.
Qed.

Lemma hasLF_cons_tailStream a c fs more : hasLF (a ++ String c (tailStream fs more)) = true.
Proof.
  pose proof (hasLF_tailStream "" fs more) as H. unfold hasLF in *.
  rewrite anyByte_sapp. simpl in *. rewrite H. rewrite !orb_true_r. reflexivity.
Qed.

Lemma writeQuoted_other c f :
  c <> dquote -> writeQuoted (String c f) = String c (writeQuoted f).
Proof.
  intros Hc. cbn [writeQuoted]. destruct (Ascii.eqb_spec c dquote); [congruence|].
  destruct (Ascii.eqb_spec c CR) as [->|_]; [reflexivity|].
  destruct (Ascii.eqb_spec c LF) as [->|_]; reflexivity.
Qed.

Lemma unquoted_plain f : fieldNeedsQuotes f = false -> anyByte isSpecial f = false.
Proof.
  unfold fieldNeedsQuotes. destruct (String.eqb_spec f "") as [->|_]; [reflexivity|].
  destruct (String.eqb f "\."); [discriminate|].
  destruct (anyByte isSpecial f); [discriminate|reflexivity].
Qed.

Lemma isSpecial_false c :
  isSpecial c = false -> c <> LF /\ c <> CR /\ c <> dquote /\ c <> comma.
Proof.
  unfold isSpecial. intros H.
  apply orb_false_iff in H as [H H4]. apply orb_false_iff in H as [H H3].
  apply orb_false_iff in H as [H1 H2].
  repeat split; apply Ascii.eqb_neq; assumption.
Qed.

(** *** Plain fields *)

Section Plain.
Variable f : string.
Hypothesis Hplain : anyByte isSpecial f = false.

Lemma plain_crlfFree t : crlfFree false (f ++ t) = crlfFree false t.
Proof.
  induction f as [|c f' IH]; [reflexivity|].
  simpl in Hplain. apply orb_false_iff in Hplain as [Hc Hf].
  destruct (isSpecial_false c Hc) as (H1 & H2 & _).
  simpl. apply Ascii.eqb_neq in H1, H2. rewrite H1, H2. apply IH, Hf.
Qed.

Lemma plain_ReadSlice t :
  ReadSlice (f ++ t) = let '(l, r, e) := ReadSlice t in (f ++ l, r, e).
Proof.
  induction f as [|c f' IH].
  - simpl. destruct (ReadSlice t) as [[l r] e]. reflexivity.
  - simpl in Hplain. apply orb_false_iff in Hplain as [Hc Hf].
    destruct (isSpecial_false c Hc) as (H1 & _).
    simpl. apply Ascii.eqb_neq in H1. rewrite H1, (IH Hf).
    destruct (ReadSlice t) as [[l r] e]. reflexivity.
Qed.

Lemma plain_IndexByte_comma t : IndexByte (f ++ String comma t) comma = Some (String.length f).
Proof.
  induction f as [|c f' IH]; [reflexivity|].
  simpl in Hplain. apply orb_false_iff in Hplain as [Hc Hf].
  destruct (isSpecial_false c Hc) as (_ & _ & _ & H4).
  simpl. apply Ascii.eqb_neq in H4. rewrite H4, (IH Hf). reflexivity.
Qed.

Lemma plain_IndexByte_eol : IndexByte (f ++ String LF "") comma = None.
Proof.
  induction f as [|c f' IH]; [reflexivity|].
  simpl in Hplain. apply orb_false_iff in Hplain as [Hc Hf].
  destruct (isSpecial_false c Hc) as (_ & _ & _ & H4).
  simpl. apply Ascii.eqb_neq in H4. rewrite H4, (IH Hf). reflexivity.
Qed.

Lemma plain_IndexByte_dquote : IndexByte f dquote = None.
Proof.
  induction f as [|c f' IH]; [reflexivity|].
  simpl in Hplain. apply orb_false_iff in Hplain as [Hc Hf].
  destruct (isSpecial_false c Hc) as (_ & _ & H3 & _).
  simpl. apply Ascii.eqb_neq in H3. rewrite H3, (IH Hf). reflexivity.
Qed.

(** A line that starts with a plain field does not start with a quote. *)
Lemma plain_head c t :
  c <> dquote -> exists c' line', f ++ String c t = String c' line' /\ c' <> dquote.
Proof.
  intros Hc. destruct f as [|c0 f'].
  - exists c, t. split; [reflexivity|exact Hc].
  - simpl in Hplain. apply orb_false_iff in Hplain as [H0 _].
    destruct (isSpecial_false c0 H0) as (_ & _ & H3 & _).
    exists c0, (f' ++ String c t). split; [reflexivity|exact H3].
Qed.
End Plain.

Lemma lengthNL_eol f : lengthNL (f ++ String LF "") = 1%nat.
Proof.
  induction f as [|c f IH]; [reflexivity|].
  change (String c f ++ String LF "") with (String c (f ++ String LF "")).
  cbn [lengthNL]. destruct (f ++ String LF "") eqn:E; [|exact IH].
  destruct f; discriminate.
Qed.

(** *** Quoted fields *)

Lemma quoted_crlfFree c b t :
  crlfFree b (writeQuoted c ++ String dquote t) = crlfFree b c && crlfFree false t.
Proof.
  revert b. induction c as [|ch c IH]; intros b.
  - reflexivity.
  - destruct (Ascii.eqb_spec ch dquote) as [->|Hne].
    + change (writeQuoted (String dquote c)) with (String dquote (String dquote (writeQuoted c))).
      change (crlfFree b (String dquote (String dquote (writeQuoted c)) ++ String dquote t))
        with (crlfFree false (writeQuoted c ++ String dquote t)).
      rewrite IH. reflexivity.
    + rewrite writeQuoted_other by exact Hne. simpl.
      destruct (Ascii.eqb ch LF); rewrite IH; [rewrite andb_assoc|]; reflexivity.
Qed.

Lemma nextRune_dquote t : nextRune (String dquote t) = byteZ dquote.
Proof. reflexivity. Qed.

Lemma nextRune_comma t : nextRune (String comma t) = byteZ comma.
Proof. reflexivity. Qed.

Lemma nextRune_LF t : nextRune (String LF t) = byteZ LF.
Proof. reflexivity. Qed.

(** Inside a quoted field, a byte other than a quote that is not the
    last of its line is copied to the field. *)
Lemma quoted_skip fuel buf ch l2 rest dst :
  ch <> dquote -> l2 <> "" ->
  parseField fuel (Some buf) (String ch l2) rest dst
  = parseField fuel (Some (buf ++ String ch "")) l2 rest dst.
Proof.
  intros Hch Hl2. destruct fuel as [|fuel]; [reflexivity|].
  cbn [parseField IndexByte]. apply Ascii.eqb_neq in Hch. rewrite Hch.
  destruct (IndexByte l2 dquote) as [i|]; cbn [fmap option_fmap option_map].
  - cbn [stake sdrop Nat.add]. rewrite !sapp_assoc. reflexivity.
  - destruct l2 as [|c2 l2']; [congruence|].
    cbn [String.length Nat.ltb Nat.leb]. rewrite !sapp_assoc. reflexivity.
Qed.

Lemma parse_quoted fs more (Hnext : parsesNext fs more) c :
  forall b buf fuel dst line rest e,
    crlfFree b (writeQuoted c ++ String dquote (tailStream fs more)) = true ->
    ReadSlice (writeQuoted c ++ String dquote (tailStream fs more)) = (line, rest, e) ->
    (String.length (writeQuoted c ++ String dquote (tailStream fs more)) < fuel)%nat ->
    parseField fuel (Some buf) line rest dst = ROk ((dst ++ (buf ++ c)%string :: fs)%list, more).
Proof.
  induction c as [|ch c IH]; intros b buf fuel dst line rest e Hclean Hline Hfuel.
  - (* the closing quote *)
    cbn [writeQuoted String.append] in Hline, Hfuel.
    cbn [ReadSlice] in Hline. change (Ascii.eqb dquote LF) with false in Hline. cbn iota in Hline.
    destruct (ReadSlice (tailStream fs more)) as [[l1 r1] e1] eqn:E1.
    injection Hline as Hl1 Hr1 He1; subst line rest e.
    destruct fuel as [|fuel]; [cbn in Hfuel; lia|].
    cbn [parseField IndexByte]. change (Ascii.eqb dquote dquote) with true. cbn iota.
    cbn [stake sdrop Nat.add]. rewrite sapp_nil_r.
    destruct fs as [|f' fs'].
    + cbn [tailStream ReadSlice] in E1. change (Ascii.eqb LF LF) with true in E1. cbn iota in E1.
      injection E1 as Hl1 Hr1 He1; subst l1 r1 e1. rewrite nextRune_LF. reflexivity.
    + cbn [tailStream ReadSlice] in E1. change (Ascii.eqb comma LF) with false in E1.
      cbn iota in E1.
      destruct (ReadSlice (writeField f' ++ tailStream fs' more)) as [[l2 r2] e2] eqn:E2.
      injection E1 as Hl1 Hr1 He1; subst l1 r1 e1. rewrite nextRune_comma.
      change (byteZ comma =? byteZ dquote) with false. cbn iota.
      rewrite Z.eqb_refl. cbn [sdrop].
      replace (dst ++ buf :: f' :: fs')%list with ((dst ++ [buf]) ++ f' :: fs')%list
        by (rewrite <- app_assoc; reflexivity).
      apply (Hnext fuel _ l2 r2 e2 E2).
      cbn [tailStream String.length] in Hfuel. lia.
  - destruct (Ascii.eqb_spec ch dquote) as [->|Hne].
    + (* a doubled quote *)
      change (writeQuoted (String dquote c)) with (String dquote (String dquote (writeQuoted c)))
        in Hclean, Hline, Hfuel.
      cbn [String.append] in Hclean, Hline, Hfuel.
      cbn [ReadSlice] in Hline. change (Ascii.eqb dquote LF) with false in Hline. cbn iota in Hline.
      destruct (ReadSlice (writeQuoted c ++ String dquote (tailStream fs more)))
        as [[l1 r1] e1] eqn:E1.
      injection Hline as Hl1 Hr1 He1; subst line rest e.
      destruct fuel as [|fuel]; [cbn in Hfuel; lia|].
      cbn [parseField IndexByte]. change (Ascii.eqb dquote dquote) with true. cbn iota.
      cbn [stake sdrop Nat.add]. rewrite sapp_nil_r, nextRune_dquote, Z.eqb_refl.
      cbn [sdrop].
      rewrite (IH false (buf ++ String dquote "") fuel dst l1 r1 e1).
      * rewrite sapp_assoc. reflexivity.
      * exact Hclean.
      * reflexivity.
      * cbn [String.length] in Hfuel. lia.
    + rewrite writeQuoted_other in Hclean, Hline, Hfuel by exact Hne.
      cbn [String.append] in Hclean, Hline, Hfuel.
      cbn [ReadSlice] in Hline.
      destruct (Ascii.eqb_spec ch LF) as [->|Hnl].
      * (* a line feed inside the field: the next line is read *)
        injection Hline as Hl1 Hr1 He1; subst line rest e.
        cbn [crlfFree] in Hclean. change (Ascii.eqb LF LF) with true in Hclean. cbn iota in Hclean.
        apply andb_true_iff in Hclean as [_ Hclean].
        destruct fuel as [|fuel]; [cbn in Hfuel; lia|].
        cbn [parseField IndexByte]. change (Ascii.eqb LF dquote) with false. cbn iota.
        cbn [fmap option_fmap option_map String.length Nat.ltb Nat.leb].
        rewrite readLine_clean by (exact Hclean || apply hasLF_cons_tailStream).
        destruct (ReadSlice (writeQuoted c ++ String dquote (tailStream fs more)))
          as [[l1 r1] e1] eqn:E1.
        rewrite (IH false (buf ++ String LF "") fuel dst l1 r1 e1).
        -- rewrite sapp_assoc. reflexivity.
        -- exact Hclean.
        -- reflexivity.
        -- cbn [String.length] in Hfuel. lia.
      * (* any other byte *)
        destruct (ReadSlice (writeQuoted c ++ String dquote (tailStream fs more)))
          as [[l1 r1] e1] eqn:E1.
        injection Hline as Hl1 Hr1 He1; subst line rest e.
        rewrite quoted_skip.
        -- rewrite (IH (Ascii.eqb ch CR) (buf ++ String ch "") fuel dst l1 r1 e1).
           ++ rewrite sapp_assoc. reflexivity.
           ++ cbn [crlfFree] in Hclean. apply Ascii.eqb_neq in Hnl. rewrite Hnl in Hclean.
              exact Hclean.
           ++ reflexivity.
           ++ cbn [String.length] in Hfuel. lia.
        -- exact Hne.
        -- destruct (writeQuoted c ++ String dquote (tailStream fs more)) as [|c0 s0] eqn:E0.
           ++ destruct (writeQuoted c); discriminate.
           ++ apply (ReadSlice_line_nonempty c0 s0 l1 r1 e1 E1).
Qed.

(** *** Records *)

Lemma sdrop_sapp_cons f c t : sdrop (String.length f + 1) (f ++ String c t) = t.
Proof. induction f as [|c0 f IH]; simpl; [reflexivity|exact IH]. Qed.

Lemma length_eol f : (String.length (f ++ String LF "") - 1 = String.length f)%nat.
Proof. rewrite length_sapp. simpl. lia. Qed.

Lemma parse_fields fs more :
  forall f, crlfFree false (writeField f ++ tailStream fs more) = true -> parsesFrom f fs more.
Proof.
  induction fs as [|f' fs' IH]; intros f Hclean fuel dst line rest e Hline Hfuel;
    unfold writeField in Hclean, Hline, Hfuel; destruct (fieldNeedsQuotes f) eqn:Hq.
  - (* a quoted last field *)
    cbn [String.append] in Hclean, Hline, Hfuel. rewrite sapp_assoc in Hclean, Hline, Hfuel.
    cbn [String.append] in Hclean, Hline, Hfuel.
    cbn [ReadSlice] in Hline. change (Ascii.eqb dquote LF) with false in Hline. cbn iota in Hline.
    destruct (ReadSlice (writeQuoted f ++ String dquote (tailStream [] more)))
      as [[l1 r1] e1] eqn:E1.
    injection Hline as Hl1 Hr1 He1; subst line rest e.
    destruct fuel as [|fuel]; [cbn in Hfuel; lia|].
    cbn [parseField]. change (Ascii.eqb dquote dquote) with true. cbn iota.
    apply (parse_quoted [] more I f false "" fuel dst l1 r1 e1 Hclean E1).
    cbn [String.length] in Hfuel. lia.
  - (* a plain last field *)
    apply unquoted_plain in Hq.
    cbn [tailStream] in Hline. rewrite (plain_ReadSlice f Hq) in Hline.
    cbn [ReadSlice] in Hline. change (Ascii.eqb LF LF) with true in Hline. cbn iota in Hline.
    injection Hline as Hl1 Hr1 He1; subst line rest e.
    destruct fuel as [|fuel]; [lia|].
    destruct (plain_head f Hq LF "" ltac:(discriminate)) as (c0 & line0 & Heq & Hc0).
    rewrite Heq. cbn [parseField]. apply Ascii.eqb_neq in Hc0. rewrite Hc0. rewrite <- Heq.
    rewrite (plain_IndexByte_eol f Hq), lengthNL_eol, length_eol, stake_sapp.
    rewrite (plain_IndexByte_dquote f Hq). reflexivity.
  - (* a quoted field before others *)
    cbn [String.append] in Hclean, Hline, Hfuel. rewrite sapp_assoc in Hclean, Hline, Hfuel.
    cbn [String.append] in Hclean, Hline, Hfuel.
    cbn [ReadSlice] in Hline. change (Ascii.eqb dquote LF) with false in Hline. cbn iota in Hline.
    destruct (ReadSlice (writeQuoted f ++ String dquote (tailStream (f' :: fs') more)))
      as [[l1 r1] e1] eqn:E1.
    injection Hline as Hl1 Hr1 He1; subst line rest e.
    destruct fuel as [|fuel]; [cbn in Hfuel; lia|].
    cbn [parseField]. change (Ascii.eqb dquote dquote) with true. cbn iota.
    cbn [crlfFree] in Hclean. change (Ascii.eqb dquote LF) with false in Hclean.
    change (Ascii.eqb dquote CR) with false in Hclean. cbn iota in Hclean.
    refine (parse_quoted (f' :: fs') more _ f false "" fuel dst l1 r1 e1 Hclean E1 _).
    + apply IH. rewrite quoted_crlfFree in Hclean. apply andb_true_iff in Hclean as [_ Hclean].
      exact Hclean.
    + cbn [String.length] in Hfuel. lia.
  - (* a plain field before others *)
    apply unquoted_plain in Hq.
    rewrite (plain_crlfFree f Hq) in Hclean.
    cbn [tailStream] in Hline, Hfuel. rewrite (plain_ReadSlice f Hq) in Hline.
    cbn [ReadSlice] in Hline. change (Ascii.eqb comma LF) with false in Hline. cbn iota in Hline.
    destruct (ReadSlice (writeField f' ++ tailStream fs' more)) as [[l2 r2] e2] eqn:E2.
    injection Hline as Hl1 Hr1 He1; subst line rest e.
    destruct fuel as [|fuel]; [lia|].
    destruct (plain_head f Hq comma l2 ltac:(discriminate)) as (c0 & line0 & Heq & Hc0).
    rewrite Heq. cbn [parseField]. apply Ascii.eqb_neq in Hc0. rewrite Hc0. rewrite <- Heq.
    rewrite (plain_IndexByte_comma f Hq), stake_sapp, (plain_IndexByte_dquote f Hq).
    rewrite sdrop_sapp_cons.
    replace (dst ++ f :: f' :: fs')%list with ((dst ++ [f]) ++ f' :: fs')%list
      by (rewrite <- app_assoc; reflexivity).
    apply (IH f' Hclean fuel _ l2 r2 e2 E2).
    rewrite length_sapp in Hfuel. cbn [String.length] in Hfuel. lia.
Qed.

Lemma clean_field f t :
  noCRLF f -> crlfFree false t = true -> crlfFree false (writeField f ++ t) = true.
Proof.
  intros Hf Ht. unfold writeField. destruct (fieldNeedsQuotes f) eqn:Hq.
  - cbn [String.append]. rewrite sapp_assoc. cbn [String.append].
    change (crlfFree false (String dquote (writeQuoted f ++ String dquote t)))
      with (crlfFree false (writeQuoted f ++ String dquote t)).
    rewrite quoted_crlfFree, Hf, Ht. reflexivity.
  - rewrite (plain_crlfFree f (unquoted_plain f Hq)). exact Ht.
Qed.

Lemma clean_tail fs more :
  Forall noCRLF fs -> crlfFree false more = true -> crlfFree false (tailStream fs more) = true.
Proof.
  intros Hfs Hmore. induction Hfs as [|f fs Hf Hfs IH].
  - exact Hmore.
  - cbn [tailStream].
    change (crlfFree false (String comma (writeField f ++ tailStream fs more)))
      with (crlfFree false (writeField f ++ tailStream fs more)).
    apply clean_field; assumption.
Qed.

Lemma first_byte f fs more :
  notBlank (f :: fs) ->
  exists c s', writeField f ++ tailStream fs more = String c s' /\ c <> LF.
Proof.
  intros [_ Hnb]. unfold writeField. destruct (fieldNeedsQuotes f) eqn:Hq.
  - eexists _, _. split; [reflexivity|discriminate].
  - apply unquoted_plain in Hq. destruct f as [|c f].
    + destruct fs as [|f' fs']; [congruence|]. eexists _, _. split; [reflexivity|discriminate].
    + simpl in Hq. apply orb_false_iff in Hq as [Hc _].
      destruct (isSpecial_false c Hc) as (H1 & _).
      eexists _, _. split; [reflexivity|exact H1].
Qed.

Lemma readNonEmptyLine_first budget c s :
  c <> LF -> crlfFree false (String c s) = true -> hasLF (String c s) = true ->
  exists line rest,
    ReadSlice (String c s) = (line, rest, false)
    /\ readNonEmptyLine (S budget) (String c s) = ROk (line, rest).
Proof.
  intros Hc Hclean Hlf. cbn [readNonEmptyLine]. rewrite readLine_clean by assumption.
  pose proof (ReadSlice_hasLF _ Hlf) as He.
  destruct (ReadSlice (String c s)) as [[line rest] e] eqn:E. simpl in He. subst e.
  exists line, rest. split; [reflexivity|].
  simpl in E. apply Ascii.eqb_neq in Hc. rewrite Hc in E.
  destruct (ReadSlice s) as [[l r] e] eqn:E'. injection E as <- <- ->.
  destruct l as [|c2 l2]; [apply ReadSlice_empty_line in E'; discriminate|].
  pose proof (lengthNL_le1 (String c (String c2 l2))) as Hle.
  destruct (Nat.eqb_spec (String.length (String c (String c2 l2)))
                         (lengthNL (String c (String c2 l2)))) as [Heq|_]; [|reflexivity].
  cbn [String.length] in Heq. lia.
Qed.

(** [readRecord] on the bytes written for [row], followed by [more]. *)
Lemma readRecord_csvWrite row more budget fpr :
  notBlank row -> Forall noCRLF row -> crlfFree false more = true ->
  (String.length (csvWrite row ++ more) < budget)%nat ->
  readRecord budget fpr (csvWrite row ++ more)
  = if (0 <? fpr)%nat then
      if (length row =? fpr)%nat then ROk (row, more, fpr) else RErr ErrFieldCount
    else ROk (row, more, length row).
Proof.
  intros Hnb Hrow Hmore Hbudget.
  destruct row as [|f fs]; [destruct Hnb; congruence|].
  rewrite csvWrite_stream in *.
  apply Forall_cons in Hrow as [Hf Hfs].
  assert (Hclean : crlfFree false (writeField f ++ tailStream fs more) = true)
    by (apply clean_field; [exact Hf|apply clean_tail; assumption]).
  destruct (first_byte f fs more Hnb) as (c & s' & Heq & Hc).
  destruct budget as [|budget]; [lia|].
  unfold readRecord.
  destruct (readNonEmptyLine_first budget c s' Hc) as (line & rest & Hline & Hread).
  { rewrite <- Heq. exact Hclean. }
  { rewrite <- Heq. apply hasLF_tailStream. }
  rewrite Heq, Hread. rewrite <- Heq in Hline.
  rewrite (parse_fields fs more f Hclean (S budget) [] line rest false Hline)
    by (rewrite Heq in *; exact Hbudget).
  reflexivity.
Qed.

(** *** Files *)

Lemma csvWriteAll_clean n rows :
  Forall (goodRow n) rows -> crlfFree false (csvWriteAll rows) = true.
Proof.
  induction 1 as [|row rows (Hnb & Hrow & _) _ IH]; [reflexivity|].
  cbn [csvWriteAll]. destruct row as [|f fs]; [destruct Hnb; congruence|].
  rewrite csvWrite_stream. apply Forall_cons in Hrow as [Hf Hfs].
  apply clean_field; [exact Hf|apply clean_tail; assumption].
Qed.

Lemma csvWriteAll_length rows : (length rows <= String.length (csvWriteAll rows))%nat.
Proof.
  induction rows as [|row rows IH]; [simpl; lia|].
  cbn [csvWriteAll length]. unfold csvWrite. rewrite !length_sapp. simpl. lia.
Qed.

Lemma readAllLoop_rows n rows :
  forall fuel budget fpr acc,
    Forall (goodRow n) rows -> (0 < n)%nat -> fpr = 0%nat \/ fpr = n ->
    (length rows < fuel)%nat -> (String.length (csvWriteAll rows) < budget)%nat ->
    readAllLoop fuel budget fpr (csvWriteAll rows) acc = ROk (acc ++ rows)%list.
Proof.
  induction rows as [|row rows IH]; intros fuel budget fpr acc Hrows Hn Hfpr Hfuel Hbudget.
  - destruct fuel as [|fuel]; [simpl in Hfuel; lia|].
    destruct budget as [|budget]; [lia|].
    rewrite app_nil_r. reflexivity.
  - apply Forall_cons in Hrows as [(Hnb & Hrow & Hlen) Hrows].
    destruct fuel as [|fuel]; [simpl in Hfuel; lia|].
    cbn [csvWriteAll] in *. cbn [readAllLoop].
    rewrite (readRecord_csvWrite row (csvWriteAll rows) budget fpr Hnb Hrow
               (csvWriteAll_clean n rows Hrows) Hbudget).
    rewrite length_sapp in Hbudget.
    assert (Hnext : readAllLoop fuel budget n (csvWriteAll rows) (acc ++ [row])%list
                    = ROk (acc ++ row :: rows)%list).
    { rewrite (IH fuel budget n (acc ++ [row])%list Hrows Hn); auto.
      - rewrite <- app_assoc. reflexivity.
      - simpl in Hfuel. lia.
      - lia. }
    destruct Hfpr as [-> | ->].
    + cbn [Nat.ltb Nat.leb]. rewrite Hlen. exact Hnext.
    + destruct n as [|n']; [lia|]. cbn [Nat.ltb Nat.leb]. rewrite Hlen, Nat.eqb_refl.
      exact Hnext.
Qed.

(** Rows of one width, none of them blank, without CR LF in any field,
    are read back as they were written. *)
Lemma ReadAll_csvWriteAll n rows :
  Forall (goodRow n) rows -> (0 < n)%nat -> ReadAll (csvWriteAll rows) = ROk rows.
Proof.
  intros Hrows Hn. unfold ReadAll.
  rewrite (readAllLoop_rows n rows _ _ 0%nat [] Hrows Hn); auto.
  pose proof (csvWriteAll_length rows). lia.
Qed.

(** *** The fields of a record *)

Lemma noLF_crlfFree s b : hasLF s = false -> crlfFree b s = true.
Proof.
  unfold hasLF. revert b. induction s as [|c s IH]; intros b H; [reflexivity|].
  simpl in *. apply orb_false_iff in H as [Hc Hs]. rewrite Hc. apply IH, Hs.
Qed.

Lemma noLF_noCRLF s : hasLF s = false -> noCRLF s.
Proof. apply noLF_crlfFree. Qed.

Lemma hasLF_sapp a b : hasLF (a ++ b) = hasLF a || hasLF b.
Proof. apply anyByte_sapp. Qed.

Lemma string_of_uint_noLF d : hasLF (NilEmpty.string_of_uint d) = false.
Proof. induction d; simpl; auto. Qed.

Lemma utoa_noLF n : hasLF (utoa n) = false.
Proof.
  unfold utoa, NilZero.string_of_uint.
  destruct (N.to_uint n); try reflexivity; apply (string_of_uint_noLF (_ _)).
Qed.

Lemma zeros_noLF n : hasLF (zeros n) = false.
Proof. induction n; simpl; auto. Qed.

Lemma fixed2_noLF neg h : hasLF (fixed2 neg h) = false.
Proof.
  unfold fixed2, utoaPad. rewrite !hasLF_sapp, !utoa_noLF, zeros_noLF.
  destruct neg; reflexivity.
Qed.

Lemma Sprintf_2f_noLF f : hasLF (Sprintf_2f f) = false.
Proof. destruct f as [s|s| |s m e]; simpl; try apply fixed2_noLF; try destruct s; reflexivity. Qed.

(** ** The raw CSV file, written and read back *)

Example csvWrite_quoting :
  csvWrite ["a"; "b,c"; " d"; ""; "e" ++ String dquote "f"]
  = "a," ++ String dquote "b,c" ++ String dquote "," ++ String dquote " d" ++ String dquote
    ",," ++ String dquote "e" ++ String dquote (String dquote "f") ++ String dquote NL.
Proof. reflexivity. Qed.

(** The scenario of the specification, end to end. *)
Example main_scenario :
  exists fs',
    main scenarioEnv "default" ∅ = Done fs'
    /\ fs' !! "sfn.csv"
       = Some ("Name,StartDate,Duration,Status" ++ NL ++ "A,2024-01-01,60.00,SUCCEEDED" ++ NL)
    /\ fs' !! "aggregate.csv"
       = Some ("Name,Max,Min,Avg,Len" ++ NL ++ "A,60.00,60.00,60.00,1" ++ NL).
Proof. eexists. split; [vm_compute; reflexivity|]. split; vm_compute; reflexivity. Qed.

Lemma rawRows_good records :
  Forall (fun r => noCRLF (Name r) /\ noCRLF (StartDate r) /\ noCRLF (Status r)) records ->
  Forall (goodRow 4) (rawRows records).
Proof.
  intros H. unfold rawRows. apply Forall_cons. split.
  - repeat split; try discriminate. repeat constructor.
  - apply Forall_map. eapply Forall_impl; [exact H|].
    intros r (H1 & H2 & H3). repeat split; try discriminate.
    unfold recordRow. repeat constructor; auto.
    apply noLF_noCRLF, Sprintf_2f_noLF.
Qed.

(** The Writer quotes the name and keeps both bytes; the Reader turns
    CR LF at the end of a line into LF, also inside a quoted field. *)
Example crlfRecord_read_back :
  ReadAll (csvWriteAll (rawRows [crlfRecord]))
  = ROk [rawHeader; ["a" ++ String LF "b"; "2024-01-01"; "60.00"; "SUCCEEDED"]].
Proof. vm_compute. reflexivity. Qed.

(** C8 as stated fails: the name of [crlfRecord] does not come back. *)
Lemma C8_crlf_not_preserved :
  ~ (forall (records : SfnRecords) (env : Env) (fs fs' : FS) (content : string),
       createCsvFile env records fs = inr fs' ->
       fs' !! "sfn.csv" = Some content ->
       ReadAll content = ROk (rawRows records)).
Proof.
  intros H.
  specialize (H [crlfRecord] quietEnv ∅ _ _ eq_refl (lookup_insert_eq _ _ _)).
  vm_compute in H. discriminate.
Qed.

(** C8, amended: for every record list in which no name, start date or
    status holds a carriage return immediately followed by a line feed,
    the file written by [createCsvFile] is read back by the Reader of
    encoding/csv as the header row followed by one row
    (Name, StartDate, duration string, Status) per record, in list
    order. *)
Theorem C8_round_trip (records : SfnRecords) (env : Env) (fs : FS) :
  Forall (fun r => noCRLF (Name r) /\ noCRLF (StartDate r) /\ noCRLF (Status r)) records ->
  createError env "sfn.csv" = None -> writeError env "sfn.csv" = None ->
  exists fs' content,
    createCsvFile env records fs = inr fs'
    /\ fs' !! "sfn.csv" = Some content
    /\ ReadAll content
       = ROk (rawHeader
              :: map (fun r => [Name r; StartDate r; StringDurationSecond r; Status r]) records).
Proof.
  intros Hclean Hc Hw.
  exists (<["sfn.csv" := csvWriteAll (rawRows records)]> fs), (csvWriteAll (rawRows records)).
  split; [|split].
  - unfold createCsvFile. apply writeFile_ok; assumption.
  - apply lookup_insert_eq.
  - apply (ReadAll_csvWriteAll 4); [apply rawRows_good, Hclean|lia].
Qed.

Lemma C8_round_trip_witness :
  exists fs' content,
    createCsvFile quietEnv sampleRecords ∅ = inr fs'
    /\ fs' !! "sfn.csv" = Some content
    /\ ReadAll content
       = ROk (rawHeader
              :: map (fun r => [Name r; StartDate r; StringDurationSecond r; Status r])
                     sampleRecords).
Proof.
  apply (C8_round_trip sampleRecords quietEnv ∅).
  - repeat constructor.
  - reflexivity.
  - reflexivity.
Defined.

(** * Further properties of the program *)

(** ** Splitting the ARN *)

Lemma Split_length s sep : length (Split s sep) = S (countByte sep s).
Proof.
  induction s as [|c s IH]; [reflexivity|].
  cbn [Split countByte]. destruct (Ascii.eqb c sep).
  - cbn [length]. rewrite IH. reflexivity.
  - destruct (Split s sep) as [|f fs]; [discriminate|]. cbn [length] in *. lia.
Qed.

Lemma Split_no_sep s sep : Forall (fun f => hasByte sep f = false) (Split s sep).
Proof.
  induction s as [|c s IH]; [repeat constructor|].
  cbn [Split]. destruct (Ascii.eqb c sep) eqn:Hc.
  - constructor; [reflexivity|exact IH].
  - destruct (Split s sep) as [|f fs]; [repeat constructor; unfold hasByte; simpl; rewrite Hc; reflexivity|].
    apply Forall_cons in IH as [Hf Hfs]. constructor; [|exact Hfs].
    unfold hasByte in *. simpl. rewrite Hc, Hf. reflexivity.
Qed.

Lemma Split_lookup_no_sep s sep i f : Split s sep !! i = Some f -> hasByte sep f = false.
Proof.
  intros H. pose proof (Split_no_sep s sep) as HF.
  rewrite Forall_forall in HF. apply HF.
  apply list_elem_of_lookup. exists i. exact H.
Qed.

(** X1: for an execution that passes both filters, the loop body
    panics with an index out of range when the ARN of the state machine
    has fewer than six colons, and builds a record when it has six or
    more. *)
Theorem X1_arn_needs_six_colons clock machine records tick e start stop arn status :
  exStartDate e = Some start -> exStopDate e = Some stop ->
  time.Before start (time.AddDate (clock tick) 0 (-2) 0) = false ->
  StateMachineArn machine = Some arn -> exStatus e = Some status ->
  ((countByte colon arn < 6)%nat ->
   transform clock machine (records, tick) e = Panicked IndexOutOfRange)
  /\ ((6 <= countByte colon arn)%nat ->
      exists r, transform clock machine (records, tick) e = Done ((records ++ [r])%list, S tick)).
Proof.
  intros Hs Ht Hb Ha Hst. pose proof (Split_length arn colon) as Hlen. split; intros Hc.
  - unfold transform. rewrite Hs, Ht, Hb, Ha. cbn. unfold index.
    rewrite (lookup_ge_None_2 (Split arn colon) 6) by lia. reflexivity.
  - destruct (lookup_lt_is_Some_2 (Split arn colon) 6 ltac:(lia)) as [name Hn].
    eexists. apply (transform_kept _ _ _ _ _ start stop arn name status); assumption.
Qed.

Lemma X1_arn_needs_six_colons_witness :
  (6 <= countByte colon sampleArn)%nat
  /\ exists r, transform sampleClock sampleMachine ([], 0%nat) sampleExecution
               = Done (([] ++ [r])%list, 1%nat).
Proof.
  assert (H : (6 <= countByte colon sampleArn)%nat) by (vm_compute; lia).
  split; [exact H|].
  apply (proj2 (X1_arn_needs_six_colons sampleClock sampleMachine [] 0%nat sampleExecution
                  sampleStart sampleStop sampleArn "SUCCEEDED"
                  eq_refl eq_refl eq_refl eq_refl eq_refl)).
  exact H.
Defined.

(** ** The loops of [main] *)

Lemma transform_incomplete clock machine st e :
  complete e = false -> transform clock machine st e = Done st.
Proof.
  destruct st as [records tick]. unfold complete, transform.
  destruct (exStartDate e); [destruct (exStopDate e)|]; [discriminate|reflexivity..].
Qed.

(** X2: executions that lack a timestamp are invisible to the loop:
    running it over all executions of a machine gives what running it
    over the complete ones gives, records, clock readings and panics
    alike. *)
Theorem X2_incomplete_invisible clock machine es st :
  forEach (transform clock machine) es st
  = forEach (transform clock machine) (List.filter complete es) st.
Proof.
  revert st. induction es as [|e es IH]; intros st; [reflexivity|].
  cbn [List.filter]. destruct (complete e) eqn:Hc.
  - cbn [forEach]. destruct (transform clock machine st e) as [st'|p]; cbn; [apply IH|reflexivity].
  - cbn [forEach]. rewrite transform_incomplete by exact Hc. cbn. apply IH.
Qed.

Lemma Format_DateOnly_noLF t : hasLF (Format_DateOnly t) = false.
Proof.
  unfold Format_DateOnly. destruct (time.Date_of t) as [[y m] d].
  assert (H : forall x w, hasLF (appendInt x w) = false).
  { intros x w. unfold appendInt, utoaPad.
    destruct (x <? 0); [change (String "-" ?a) with ("-" ++ a)|];
      rewrite ?hasLF_sapp, ?zeros_noLF, ?utoa_noLF; reflexivity. }
  rewrite !hasLF_sapp, !H. reflexivity.
Qed.

Lemma Sub_in_int64 t u : in_int64 (time.Sub t u).
Proof.
  rewrite Sub_clamp. unfold in_int64, time.minDuration, time.maxDuration, minInt64, maxInt64. lia.
Qed.

Lemma transform_step clock machine records tick e records' tick' :
  transform clock machine (records, tick) e = Done (records', tick') ->
  (records' = records \/ exists r, records' = (records ++ [r])%list /\ producedBy machine e r)
  /\ tick' = (tick + (if complete e then 1 else 0))%nat.
Proof.
  intros H. apply transform_Done in H.
  destruct H as [[Hm H]|[(start & stop & Hs & Ht & _ & H)|H]].
  - injection H as -> ->.
    assert (complete e = false) as ->
      by (unfold complete; destruct Hm as [-> | ->]; [|destruct (exStartDate e)]; reflexivity).
    split; [left; reflexivity|lia].
  - injection H as -> ->. unfold complete. rewrite Hs, Ht. split; [left; reflexivity|lia].
  - destruct H as (start & stop & arn & name & status & Hs & Ht & _ & Ha & Hn & Hst & H).
    injection H as -> ->. unfold complete. rewrite Hs, Ht. split; [|lia].
    right. eexists. split; [reflexivity|].
    exists start, stop, arn, name, status. auto 10.
Qed.

Lemma forEach_transform clock machine es :
  forall records tick records' tick',
    forEach (transform clock machine) es (records, tick) = Done (records', tick') ->
    exists new,
      records' = (records ++ new)%list /\ producedInOrder machine es new
      /\ tick' = (tick + length (List.filter complete es))%nat.
Proof.
  induction es as [|e es IH]; intros records tick records' tick' H.
  - injection H as <- <-. exists []. rewrite app_nil_r.
    split; [reflexivity|]. split; [exists []; split; constructor|simpl; lia].
  - cbn [forEach] in H.
    destruct (transform clock machine (records, tick) e) as [[r1 t1]|p] eqn:E; [|discriminate].
    cbn in H. apply transform_step in E as (Hstep & ->).
    apply IH in H as (new2 & -> & (kept & Hsub & Hall) & ->).
    assert (Htick : (tick + (if complete e then 1 else 0) + length (List.filter complete es)
                     = tick + length (List.filter complete (e :: es)))%nat)
      by (cbn [List.filter]; destruct (complete e); simpl; lia).
    destruct Hstep as [-> | (r & -> & Hr)].
    + exists new2. split; [reflexivity|]. split; [|exact Htick].
      exists kept. split; [apply sublist_cons; exact Hsub|exact Hall].
    + exists (r :: new2). rewrite <- app_assoc. split; [reflexivity|]. split; [|exact Htick].
      exists (e :: kept). split; [apply sublist_skip; exact Hsub|constructor; assumption].
Qed.

Lemma producedInOrder_length machine es new :
  producedInOrder machine es new -> (length new <= length (List.filter complete es))%nat.
Proof.
  intros (kept & Hsub & Hall).
  assert (Hc : Forall (fun e => complete e = true) kept).
  { clear Hsub. induction Hall as [|e r kept new Hr _ IH]; constructor; [|exact IH].
    destruct Hr as (start & stop & _ & _ & _ & Hs & Ht & _). unfold complete.
    rewrite Hs, Ht. reflexivity. }
  rewrite <- (Forall2_length _ _ _ Hall). clear Hall.
  induction Hsub as [|e k es' Hsub IH|e k es' Hsub IH].
  - simpl. lia.
  - apply Forall_cons in Hc as [He Hc]. cbn [List.filter]. rewrite He. simpl.
    specialize (IH Hc). lia.
  - specialize (IH Hc). cbn [List.filter]. destruct (complete e); simpl; lia.
Qed.

(** X3: the loop over the executions of one machine only appends to
    the record list: what was collected before stays in place, the new
    records are built from executions of the list in the order of the
    list (name from the machine's ARN, start date, duration and status
    from the execution), at most one per complete execution, and each
    complete execution reads the clock once. *)
Theorem X3_loop_appends clock machine es records tick records' tick' :
  forEach (transform clock machine) es (records, tick) = Done (records', tick') ->
  exists new,
    records' = (records ++ new)%list
    /\ producedInOrder machine es new
    /\ (length new <= length (List.filter complete es))%nat
    /\ tick' = (tick + length (List.filter complete es))%nat.
Proof.
  intros H. apply forEach_transform in H as (new & Hr & Hp & Ht).
  exists new. repeat split; auto. apply (producedInOrder_length machine), Hp.
Qed.

Lemma X3_loop_appends_witness :
  exists new,
    [sampleRecord] = ([] ++ new)%list
    /\ producedInOrder sampleMachine [sampleExecution; backwardsExecution] new
    /\ (length new <= length (List.filter complete [sampleExecution; backwardsExecution]))%nat
    /\ 2%nat = (0 + length (List.filter complete [sampleExecution; backwardsExecution]))%nat.
Proof.
  apply (X3_loop_appends (fun n => match n with O => sampleClock O | _ => time.Date 2030 1 1 0 0 0 0 0 end)
           sampleMachine [sampleExecution; backwardsExecution] [] 0%nat [sampleRecord] 2%nat).
  reflexivity.
Defined.

Lemma producedBy_facts machine e r :
  producedBy machine e r ->
  hasByte colon (Name r) = false /\ in_int64 (Duration r) /\ hasLF (StartDate r) = false.
Proof.
  intros (start & stop & arn & name & status & _ & _ & _ & Hn & _ & ->). simpl.
  split; [exact (Split_lookup_no_sep _ _ _ _ Hn)|].
  split; [apply Sub_in_int64|apply Format_DateOnly_noLF].
Qed.

(** Where a record of the report comes from. *)
Lemma fetch_loop env machines :
  forall records tick records' tick',
    forEach (fun st machine =>
               executions ← orPanic (ListExecutions env machine);
               forEach (transform (Now env) machine) executions st)
            machines (records, tick) = Done (records', tick') ->
    exists new,
      records' = (records ++ new)%list
      /\ Forall (fun r => exists machine es e,
                   machine ∈ machines /\ ListExecutions env machine = inr es
                   /\ e ∈ es /\ producedBy machine e r) new
      /\ (length new <= tick' - tick)%nat /\ (tick <= tick')%nat
      /\ forall machine, machine ∈ machines -> exists es, ListExecutions env machine = inr es.
Proof.
  induction machines as [|machine machines IH]; intros records tick records' tick' H.
  - injection H as H1 H2; subst records' tick'. exists []. rewrite app_nil_r.
    split; [reflexivity|]. split; [constructor|]. split; [simpl; lia|]. split; [lia|].
    intros machine Hin. inversion Hin.
  - cbn [forEach] in H.
    destruct (ListExecutions env machine) as [err|es] eqn:El; [discriminate|]. cbn in H.
    destruct (forEach (transform (Now env) machine) es (records, tick)) as [[r1 t1]|p] eqn:E;
      [|discriminate].
    cbn in H. apply forEach_transform in E as (new1 & -> & Hp1 & ->).
    pose proof (producedInOrder_length _ _ _ Hp1) as Hl1.
    apply IH in H as (new2 & -> & Hp2 & Hl2 & Ht2 & Hall).
    exists (new1 ++ new2)%list. rewrite app_assoc. split; [reflexivity|]. split; [|split; [|split]].
    + apply Forall_app. split.
      * destruct Hp1 as (kept & Hsub & Hall1).
        apply Forall_forall. intros r Hr.
        destruct (proj1 (list_elem_of_lookup new1 r) Hr) as [i Hi].
        destruct (Forall2_lookup_r _ _ _ _ _ Hall1 Hi) as (e & He & Hpe).
        exists machine, es, e. repeat split; auto; [left|].
        apply (elem_of_sublist kept); [|exact Hsub]. apply list_elem_of_lookup. eauto.
      * eapply Forall_impl; [exact Hp2|]. intros r (m & es' & e & Hm & Hr).
        exists m, es', e. split; [right|]; auto.
    + rewrite length_app. lia.
    + lia.
    + intros m Hin. apply elem_of_cons in Hin as [->|Hin]; [exists es; exact El|auto].
Qed.

(** X4: when the two nested loops of [main] complete, every listing of
    executions has succeeded, every collected record was built from an
    execution listed for one of the state machines (so its name holds
    no colon, its duration lies in the 64-bit range and its start date
    holds no line feed), and there are no more records than clock
    readings. *)
Theorem X4_fetch_records env machines records n :
  fetch env machines = Done (records, n) ->
  Forall (fun r => (exists machine es e,
                      machine ∈ machines /\ ListExecutions env machine = inr es
                      /\ e ∈ es /\ producedBy machine e r)
                   /\ hasByte colon (Name r) = false /\ in_int64 (Duration r)
                   /\ hasLF (StartDate r) = false) records
  /\ (length records <= n)%nat
  /\ forall machine, machine ∈ machines -> exists es, ListExecutions env machine = inr es.
Proof.
  intros H. unfold fetch in H. apply fetch_loop in H as (new & -> & Hp & Hl & _ & Hall).
  simpl. split; [|split; [lia|exact Hall]].
  eapply Forall_impl; [exact Hp|]. intros r Hr. split; [exact Hr|].
  destruct Hr as (m & es & e & _ & _ & _ & Hr). apply (producedBy_facts m e), Hr.
Qed.

Lemma X4_fetch_records_witness :
  Forall (fun r => (exists machine es e,
                      machine ∈ scenarioMachines /\ ListExecutions scenarioEnv machine = inr es
                      /\ e ∈ es /\ producedBy machine e r)
                   /\ hasByte colon (Name r) = false /\ in_int64 (Duration r)
                   /\ hasLF (StartDate r) = false) [scenarioRecord]
  /\ (length [scenarioRecord] <= 1)%nat
  /\ forall machine, machine ∈ scenarioMachines ->
                     exists es, ListExecutions scenarioEnv machine = inr es.
Proof.
  apply (X4_fetch_records scenarioEnv scenarioMachines [scenarioRecord] 1%nat).
  reflexivity.
Defined.

(** ** The retention window *)

Lemma two_months_back y m d :
  1 <= m <= 12 ->
  59 <= time.daysFromCivil y m d
        - time.daysFromCivil (y + (m - 2 - 1) / 12) ((m - 2 - 1) mod 12 + 1) d <= 62.
Proof.
  intros Hm.
  destruct (Z_le_gt_dec m 2) as [H2|H2].
  - replace ((m - 2 - 1) / 12) with (-1) by (Z.div_mod_to_equations; lia).
    replace ((m - 2 - 1) mod 12 + 1) with (m + 10) by (Z.div_mod_to_equations; lia).
    unfold time.daysFromCivil.
    destruct (Z.leb_spec m 2); [|lia]. destruct (Z.leb_spec (m + 10) 2); [lia|].
    Z.div_mod_to_equations. lia.
  - replace ((m - 2 - 1) / 12) with 0 by (Z.div_mod_to_equations; lia).
    replace ((m - 2 - 1) mod 12 + 1) with (m - 2) by (Z.div_mod_to_equations; lia).
    unfold time.daysFromCivil.
    destruct (Z.leb_spec m 2); [lia|].
    destruct (Z.leb_spec (m - 2) 2); Z.div_mod_to_equations; lia.
Qed.

(** Two calendar months back is the same wall-clock time 59 to 62 days
    earlier. *)
Lemma AddDate_two_months_back t :
  exists k, 59 <= k <= 62
            /\ time.instant (time.AddDate t 0 (-2) 0) = time.instant t - k * Day.
Proof.
  unfold time.AddDate, time.Date_of, time.Clock.
  set (ls := time.localSec t). set (z := ls / 86400).
  pose proof (civilFromDays_spec z) as Hspec.
  destruct (time.civilFromDays z) as [[y m] d]. destruct Hspec as (Hinv & Hm & _).
  exists (time.daysFromCivil y m d
          - time.daysFromCivil (y + (m - 2 - 1) / 12) ((m - 2 - 1) mod 12 + 1) d).
  split; [apply two_months_back; exact Hm|].
  unfold time.Date. cbn [time.instant].
  replace (y + 0) with y by lia. replace (d + 0) with d by lia.
  replace (m + -2 - 1) with (m - 2 - 1) by lia.
  rewrite Hinv. pose proof (sec_nsec t) as Hsn.
  assert (Hls : ls = time.sec t + time.zoneOffset t) by reflexivity.
  unfold Day, time.Second in *. unfold z.
  generalize dependent (time.sec t). generalize dependent (time.nsec t).
  intros ns s0 Hsn Hls.
  set (days' := time.daysFromCivil _ _ _).
  Z.div_mod_to_equations. lia.
Qed.



(** ** The start date *)

Lemma padOK_year : forallb (padOK 4) (seq 0 (Z.to_nat 10000)) = true.
Proof. vm_compute. reflexivity. Qed.

Lemma padOK_month_day : forallb (padOK 2) (seq 0 (Z.to_nat 100)) = true.
Proof. vm_compute. reflexivity. Qed.

Lemma utoaPad_length w bound x :
  forallb (padOK w) (seq 0 (Z.to_nat bound)) = true -> 0 <= x < bound ->
  String.length (utoaPad (Z.to_N x) w) = w.
Proof.
  intros Hall Hx. rewrite forallb_forall in Hall.
  specialize (Hall (Z.to_nat x)). unfold padOK in Hall.
  rewrite Z_nat_N in Hall. apply Nat.eqb_eq, Hall, in_seq. lia.
Qed.

Lemma get_sapp a c b : String.get (String.length a) (a ++ String c b) = Some c.
Proof. induction a as [|x a IH]; [reflexivity|exact IH]. Qed.

(** X6: for a start timestamp in the years 0 to 9999 the start date of
    a record is the 10 bytes YYYY-MM-DD: four digits of the year, two of
    the month (1 to 12) and two of the day (1 to 31) of the timestamp's
    calendar date, zero padded, with a dash at offsets 4 and 7. *)
Theorem X6_start_date_shape (t : time.Time) (y m d : Z) :
  time.Date_of t = (y, m, d) -> 0 <= y <= 9999 ->
  Format_DateOnly t
  = utoaPad (Z.to_N y) 4 ++ "-" ++ utoaPad (Z.to_N m) 2 ++ "-" ++ utoaPad (Z.to_N d) 2
  /\ String.length (Format_DateOnly t) = 10%nat
  /\ String.get 4 (Format_DateOnly t) = Some "-"%char
  /\ String.get 7 (Format_DateOnly t) = Some "-"%char
  /\ 1 <= m <= 12 /\ 1 <= d <= 31
  /\ time.daysFromCivil y m d = time.localSec t / 86400.
Proof.
  intros Hd Hy. unfold Format_DateOnly. rewrite Hd.
  pose proof (civilFromDays_spec (time.localSec t / 86400)) as Hspec.
  unfold time.Date_of in Hd. rewrite Hd in Hspec. destruct Hspec as (Hinv & Hm & Hday).
  unfold appendInt.
  destruct (Z.ltb_spec y 0); [lia|]. destruct (Z.ltb_spec m 0); [lia|].
  destruct (Z.ltb_spec d 0); [lia|].
  pose proof (utoaPad_length 4 10000 y padOK_year ltac:(lia)) as Ly.
  pose proof (utoaPad_length 2 100 m padOK_month_day ltac:(lia)) as Lm.
  pose proof (utoaPad_length 2 100 d padOK_month_day ltac:(lia)) as Ld.
  split; [reflexivity|]. split; [|split; [|split]].
  - rewrite !length_sapp, Ly, Lm, Ld. reflexivity.
  - rewrite <- Ly at 1. apply get_sapp.
  - rewrite <- !sapp_assoc.
    replace 7%nat with (String.length ((utoaPad (Z.to_N y) 4 ++ "-") ++ utoaPad (Z.to_N m) 2))
      by (rewrite !length_sapp, Ly, Lm; reflexivity).
    rewrite (sapp_assoc _ "-" (utoaPad (Z.to_N d) 2)). apply get_sapp.
  - auto.
Qed.

Lemma X6_start_date_shape_witness :
  Format_DateOnly sampleStart
  = utoaPad (Z.to_N 2024) 4 ++ "-" ++ utoaPad (Z.to_N 1) 2 ++ "-" ++ utoaPad (Z.to_N 1) 2
  /\ String.length (Format_DateOnly sampleStart) = 10%nat
  /\ String.get 4 (Format_DateOnly sampleStart) = Some "-"%char
  /\ String.get 7 (Format_DateOnly sampleStart) = Some "-"%char
  /\ 1 <= 1 <= 12 /\ 1 <= 1 <= 31
  /\ time.daysFromCivil 2024 1 1 = time.localSec sampleStart / 86400.
Proof.
  apply (X6_start_date_shape sampleStart 2024 1 1); [reflexivity|lia].
Defined.

(** ** The groups of the aggregation *)

Lemma groupSizes_step (m : gmap string SfnRecords) (x : SfnRecord) :
  groupSizes (map_to_list (<[Name x := (default [] (m !! Name x) ++ [x])%list]> m))
  = S (groupSizes (map_to_list m)).
Proof.
  unfold groupSizes. destruct (m !! Name x) as [g|] eqn:E; cbn [default from_option].
  - rewrite <- insert_delete_eq.
    rewrite map_to_list_insert by apply lookup_delete_eq.
    rewrite <- (map_to_list_delete m (Name x) g E).
    cbn [sum_list_with snd]. rewrite length_app. simpl. lia.
  - rewrite map_to_list_insert by exact E. reflexivity.
Qed.

Lemma groupSizes_fold (r : SfnRecords) (m : gmap string SfnRecords) :
  groupSizes (map_to_list
    (fold_left (fun m record =>
                  <[Name record := (default [] (m !! Name record) ++ [record])%list]> m) r m))
  = (groupSizes (map_to_list m) + length r)%nat.
Proof.
  revert m. induction r as [|x r IH]; intros m; [simpl; lia|].
  cbn [fold_left]. rewrite IH, groupSizes_step. simpl. lia.
Qed.

Lemma groupSizes_ge (groups : list (string * SfnRecords)) :
  Forall (fun kv => kv.2 <> []) groups -> (length groups <= groupSizes groups)%nat.
Proof.
  unfold groupSizes. induction 1 as [|[k g] groups Hg _ IH]; [simpl; lia|].
  cbn [sum_list_with length snd] in *. destruct g; [congruence|]. simpl. lia.
Qed.

(** X7: every record lands in exactly one group: the sizes of the
    groups that the aggregate writer visits (the Len column) add up to
    the number of records, and there are at most as many groups as
    records. *)
Theorem X7_group_sizes (env : Env) (records : SfnRecords) :
  rangeOrder_ok env ->
  groupSizes (rangeOrder env (aggregated records)) = length records
  /\ (length (rangeOrder env (aggregated records)) <= length records)%nat.
Proof.
  intros Hok.
  assert (Hsum : groupSizes (rangeOrder env (aggregated records)) = length records).
  { unfold groupSizes. rewrite (Hok (aggregated records)).
    pose proof (groupSizes_fold records ∅) as H. unfold groupSizes in H.
    unfold aggregated. rewrite H, map_to_list_empty. reflexivity. }
  split; [exact Hsum|]. rewrite <- Hsum. apply groupSizes_ge.
  apply Forall_forall. intros [k g] Hin. rewrite (Hok (aggregated records)) in Hin.
  apply elem_of_map_to_list in Hin. apply aggregated_Some in Hin as [_ Hg]. exact Hg.
Qed.

Lemma X7_group_sizes_witness :
  groupSizes (rangeOrder quietEnv (aggregated sampleRecords)) = length sampleRecords
  /\ (length (rangeOrder quietEnv (aggregated sampleRecords)) <= length sampleRecords)%nat.
Proof. apply (X7_group_sizes quietEnv sampleRecords). intros m. reflexivity. Defined.

Lemma aggregateRows_shape (groups : list (string * SfnRecords)) rows :
  aggregateRows groups = Done rows ->
  Forall2 (fun kv row =>
             exists max min avg,
               MaxDuration kv.2 = Done max /\ MinDuration kv.2 = Done min
               /\ AvgDuration kv.2 = Done avg
               /\ row = [kv.1; durationToSeconfString max; durationToSeconfString min;
                         durationToSeconfString avg; Sprintf_d (Len kv.2)])
          groups rows.
Proof.
  revert rows. induction groups as [|[k g] groups IH]; intros rows H.
  - injection H as <-. constructor.
  - cbn [aggregateRows] in H. unfold aggregateRow in H.
    destruct (MaxDuration g) as [max|] eqn:E1; [|discriminate].
    destruct (MinDuration g) as [min|] eqn:E2; [|discriminate].
    destruct (AvgDuration g) as [avg|] eqn:E3; [|discriminate]. cbn in H.
    destruct (aggregateRows groups) as [rows'|] eqn:E4; [|discriminate]. cbn in H.
    injection H as <-. constructor; [|apply IH; reflexivity].
    exists max, min, avg. auto.
Qed.

Lemma aggregated_names name records :
  is_Some (aggregated records !! name) <-> exists r, r ∈ records /\ Name r = name.
Proof.
  rewrite aggregated_lookup. unfold groupOf. split.
  - intros [g Hg]. destruct (filter _ records) as [|x g'] eqn:E; [discriminate|].
    assert (Hx : x ∈ filter (fun x => Name x = name) records) by (rewrite E; left).
    apply list_elem_of_filter in Hx as [Hn Hx]. eauto.
  - intros (r & Hr & Hn).
    assert (Hx : r ∈ filter (fun x => Name x = name) records)
      by (apply list_elem_of_filter; auto).
    destruct (filter _ records); [inversion Hx|eauto].
Qed.

(** X8: aggregate.csv gets one row of five fields per distinct name:
    the names in the first column are pairwise different, and a name is
    there exactly when some record bears it. *)
Theorem X8_one_row_per_name (env : Env) (records : SfnRecords) (rows : list (list string)) :
  rangeOrder_ok env ->
  aggregateRows (rangeOrder env (aggregated records)) = Done rows ->
  NoDup (map (hd "") rows)
  /\ (forall name, name ∈ map (hd "") rows <-> exists r, r ∈ records /\ Name r = name)
  /\ Forall (fun row => length row = 5%nat) rows.
Proof.
  intros Hok Hrows. apply aggregateRows_shape in Hrows.
  assert (Hfst : map (hd "") rows = (rangeOrder env (aggregated records)).*1).
  { induction Hrows as [|kv row groups rows' (max & min & avg & _ & _ & _ & ->) _ IH];
      [reflexivity|]. cbn. f_equal. exact IH. }
  rewrite Hfst. split; [|split].
  - rewrite (Hok (aggregated records)). apply NoDup_fst_map_to_list.
  - intros name. rewrite (Hok (aggregated records)), <- aggregated_names.
    rewrite list_elem_of_fmap. split.
    + intros ([k g] & -> & Hin). apply elem_of_map_to_list in Hin. eauto.
    + intros [g Hg]. exists (name, g). split; [reflexivity|].
      apply elem_of_map_to_list. exact Hg.
  - clear Hfst. induction Hrows as [|kv row groups rows' (max & min & avg & _ & _ & _ & ->) _ IH];
      constructor; [reflexivity|exact IH].
Qed.

Lemma X8_one_row_per_name_witness :
  NoDup (map (hd "") [["A"; "30.00"; "10.00"; "20.00"; "3"]; ["B"; "7.00"; "7.00"; "7.00"; "1"]])
  /\ (forall name,
        name ∈ map (hd "") [["A"; "30.00"; "10.00"; "20.00"; "3"]; ["B"; "7.00"; "7.00"; "7.00"; "1"]]
        <-> exists r, r ∈ sampleRecords /\ Name r = name)
  /\ Forall (fun row => length row = 5%nat)
            [["A"; "30.00"; "10.00"; "20.00"; "3"]; ["B"; "7.00"; "7.00"; "7.00"; "1"]].
Proof.
  apply (X8_one_row_per_name quietEnv sampleRecords).
  - intros m. reflexivity.
  - vm_compute. reflexivity.
Defined.

(** ** The statistics do not depend on the order of a group *)

Lemma durations_perm (g g' : SfnRecords) : g ≡ₚ g' -> durations g ≡ₚ durations g'.
Proof. intros H. unfold durations. apply Permutation_map, H. Qed.

Lemma sumDurations_perm (g g' : SfnRecords) : g ≡ₚ g' -> sumDurations g = sumDurations g'.
Proof.
  intros H. unfold sumDurations. apply durations_perm in H.
  induction H as [|d l l' _ IH|d d' l|l l' l'' _ IH1 _ IH2]; simpl; lia.
Qed.

(** X9: the row written for a group does not depend on the order in
    which its records were collected: groups that are permutations of
    each other give the same maximum, minimum, average and count (and
    the same panic when empty). *)
Theorem X9_row_order_independent (name : string) (g g' : SfnRecords) :
  g ≡ₚ g' -> aggregateRow name g = aggregateRow name g'.
Proof.
  intros Hp. destruct g as [|r g0].
  - apply Permutation_nil_l in Hp. subst g'. reflexivity.
  - assert (Hne : r :: g0 <> []) by discriminate.
    assert (Hne' : g' <> []).
    { intros ->. apply Permutation_nil_r in Hp. discriminate. }
    set (g := r :: g0) in *.
    destruct (MaxDuration_spec g Hne) as (max & Hmax & Hmax1 & Hmax2).
    destruct (MaxDuration_spec g' Hne') as (max' & Hmax' & Hmax1' & Hmax2').
    destruct (MinDuration_spec g Hne) as (min & Hmin & Hmin1 & Hmin2).
    destruct (MinDuration_spec g' Hne') as (min' & Hmin' & Hmin1' & Hmin2').
    pose proof (durations_perm g g' Hp) as Hd.
    assert (max = max').
    { apply Z.le_antisymm; [apply Hmax2'; rewrite <- Hd|apply Hmax2; rewrite Hd]; assumption. }
    assert (min = min').
    { apply Z.le_antisymm; [apply Hmin2; rewrite Hd|apply Hmin2'; rewrite <- Hd]; assumption. }
    subst max' min'.
    rewrite (aggregateRow_spec name g max min _ Hmax Hmin (AvgDuration_spec g Hne)).
    rewrite (aggregateRow_spec name g' max min _ Hmax' Hmin' (AvgDuration_spec g' Hne')).
    unfold Len. rewrite (sumDurations_perm g g' Hp), (Permutation_length Hp). reflexivity.
Qed.

Lemma X9_row_order_independent_witness :
  aggregateRow "A" [recA10; recA20; recA30] = aggregateRow "A" [recA20; recA10; recA30].
Proof.
  apply (X9_row_order_independent "A" [recA10; recA20; recA30] [recA20; recA10; recA30]).
  apply perm_swap.
Defined.

(** ** The aggregate CSV file, written and read back *)

Lemma Sprintf_d_noLF n : hasLF (Sprintf_d n) = false.
Proof.
  unfold Sprintf_d. destruct (n <? 0); [change (String "-" ?a) with ("-" ++ a)|];
    rewrite ?hasLF_sapp, ?utoa_noLF; reflexivity.
Qed.

Lemma aggregate_rows_good (records : SfnRecords) (groups : list (string * SfnRecords)) rows :
  Forall (fun r => noCRLF (Name r)) records ->
  Forall (fun kv => is_Some (aggregated records !! kv.1)) groups ->
  aggregateRows groups = Done rows ->
  Forall (goodRow 5) rows.
Proof.
  intros Hclean Hkeys Hrows. apply aggregateRows_shape in Hrows.
  induction Hrows as [|kv row groups' rows' (max & min & avg & _ & _ & _ & ->) _ IH];
    [constructor|].
  apply Forall_cons in Hkeys as [Hk Hkeys]. constructor; [|apply IH, Hkeys].
  apply aggregated_names in Hk as (r & Hr & Hn).
  rewrite Forall_forall in Hclean. specialize (Hclean r Hr). rewrite Hn in Hclean.
  repeat split; try discriminate. unfold durationToSeconfString.
  repeat constructor; auto using noLF_noCRLF, Sprintf_2f_noLF, Sprintf_d_noLF.
Qed.

(** X10: when no name holds a carriage return followed by a line feed,
    the file written by [aggregate] is read back by the Reader of
    encoding/csv as the header row Name,Max,Min,Avg,Len followed by the
    rows that were written, in the order of writing. *)
Theorem X10_aggregate_round_trip (env : Env) (records : SfnRecords) (fs : FS) :
  rangeOrder_ok env ->
  Forall (fun r => noCRLF (Name r)) records ->
  createError env "aggregate.csv" = None -> writeError env "aggregate.csv" = None ->
  exists rows fs' content,
    aggregateRows (rangeOrder env (aggregated records)) = Done rows
    /\ aggregate env records fs = Done (inr fs')
    /\ fs' !! "aggregate.csv" = Some content
    /\ ReadAll content = ROk (aggregateHeader :: rows).
Proof.
  intros Hok Hclean Hc Hw.
  assert (Hkeys : Forall (fun kv => is_Some (aggregated records !! kv.1))
                         (rangeOrder env (aggregated records))).
  { apply Forall_forall. intros [k g] Hin. rewrite (Hok (aggregated records)) in Hin.
    apply elem_of_map_to_list in Hin. simpl. eauto. }
  destruct (aggregateRows_Done (rangeOrder env (aggregated records))) as [rows Hrows].
  { intros k g Hin. rewrite (Hok (aggregated records)) in Hin.
    apply elem_of_map_to_list in Hin. apply aggregated_Some in Hin as [_ Hg]. exact Hg. }
  exists rows, (<["aggregate.csv" := csvWriteAll (aggregateHeader :: rows)]> fs),
    (csvWriteAll (aggregateHeader :: rows)).
  split; [exact Hrows|]. split; [|split].
  - unfold aggregate, createAggregateCsvFile. rewrite Hrows. cbn.
    rewrite writeFile_ok by assumption. reflexivity.
  - apply lookup_insert_eq.
  - apply (ReadAll_csvWriteAll 5); [|lia]. constructor.
    + repeat split; try discriminate. repeat constructor.
    + apply (aggregate_rows_good records _ rows Hclean Hkeys Hrows).
Qed.

Lemma X10_aggregate_round_trip_witness :
  exists rows fs' content,
    aggregateRows (rangeOrder quietEnv (aggregated sampleRecords)) = Done rows
    /\ aggregate quietEnv sampleRecords ∅ = Done (inr fs')
    /\ fs' !! "aggregate.csv" = Some content
    /\ ReadAll content = ROk (aggregateHeader :: rows).
Proof.
  apply (X10_aggregate_round_trip quietEnv sampleRecords ∅).
  - intros m. reflexivity.
  - repeat constructor.
  - reflexivity.
  - reflexivity.
Defined.

(** ** What [main] leaves behind *)

(** X11: when [main] completes, the profile was not empty, the session
    and every listing succeeded, sfn.csv holds the header row and one
    row per collected record, aggregate.csv holds its header row and
    the aggregate rows, and no other file was touched. *)
Theorem X11_main_completes (env : Env) (profile : string) (fs fs' : FS) :
  main env profile fs = Done fs' ->
  profile <> "" /\ newSession env profile = None
  /\ exists machines records n rows,
       ListStateMachines env = inr machines
       /\ fetch env machines = Done (records, n)
       /\ aggregateRows (rangeOrder env (aggregated records)) = Done rows
       /\ fs' !! "sfn.csv" = Some (csvWriteAll (rawHeader :: map recordRow records))
       /\ fs' !! "aggregate.csv" = Some (csvWriteAll (aggregateHeader :: rows))
       /\ forall path, path <> "sfn.csv" -> path <> "aggregate.csv" -> fs' !! path = fs !! path.
Proof.
  unfold main. destruct (String.eqb_spec profile "") as [|Hp]; [discriminate|].
  destruct (newSession env profile) as [err|] eqn:Es; [discriminate|].
  destruct (ListStateMachines env) as [err|machines] eqn:El; [discriminate|]. cbn.
  destruct (fetch env machines) as [[records n]|p] eqn:Ef; [|discriminate]. cbn.
  unfold createCsvFile, writeFile.
  destruct (createError env "sfn.csv"); [discriminate|].
  destruct (writeError env "sfn.csv"); [discriminate|]. cbn.
  unfold aggregate, createAggregateCsvFile.
  destruct (aggregateRows (rangeOrder env (aggregated records))) as [rows|p] eqn:Er;
    [|discriminate]. cbn. unfold writeFile.
  destruct (createError env "aggregate.csv"); [discriminate|].
  destruct (writeError env "aggregate.csv"); [discriminate|]. cbn.
  intros [= <-]. split; [exact Hp|]. split; [reflexivity|].
  exists machines, records, n, rows. repeat split; auto.
  - rewrite lookup_insert_ne by discriminate. apply lookup_insert_eq.
  - apply lookup_insert_eq.
  - intros path H1 H2. rewrite !lookup_insert_ne by congruence. reflexivity.
Qed.

Lemma X11_main_completes_witness :
  "default" <> "" /\ newSession scenarioEnv "default" = None
  /\ exists machines records n rows,
       ListStateMachines scenarioEnv = inr machines
       /\ fetch scenarioEnv machines = Done (records, n)
       /\ aggregateRows (rangeOrder scenarioEnv (aggregated records)) = Done rows
       /\ (<["aggregate.csv" := csvWriteAll [aggregateHeader; ["A"; "60.00"; "60.00"; "60.00"; "1"]]]>
            (<["sfn.csv" := csvWriteAll (rawHeader :: map recordRow [scenarioRecord])]> ∅) : FS)
          !! "sfn.csv" = Some (csvWriteAll (rawHeader :: map recordRow records))
       /\ (<["aggregate.csv" := csvWriteAll [aggregateHeader; ["A"; "60.00"; "60.00"; "60.00"; "1"]]]>
            (<["sfn.csv" := csvWriteAll (rawHeader :: map recordRow [scenarioRecord])]> ∅) : FS)
          !! "aggregate.csv" = Some (csvWriteAll (aggregateHeader :: rows))
       /\ forall path, path <> "sfn.csv" -> path <> "aggregate.csv" ->
            (<["aggregate.csv" := csvWriteAll [aggregateHeader; ["A"; "60.00"; "60.00"; "60.00"; "1"]]]>
              (<["sfn.csv" := csvWriteAll (rawHeader :: map recordRow [scenarioRecord])]> ∅) : FS)
            !! path = (∅ : FS) !! path.
Proof.
  apply (X11_main_completes scenarioEnv "default" ∅). vm_compute. reflexivity.
Defined.

(** ** The report of a run, read back *)

Lemma Split_crlfFree s b :
  crlfFree b s = true ->
  match Split s colon with
  | f :: fs => crlfFree b f = true /\ Forall noCRLF fs
  | [] => False
  end.
Proof.
  revert b. induction s as [|c s IH]; intros b H.
  - split; [reflexivity|constructor].
  - cbn [Split]. cbn [crlfFree] in H. destruct (Ascii.eqb_spec c colon) as [->|Hc].
    + change (Ascii.eqb colon LF) with false in H. change (Ascii.eqb colon CR) with false in H.
      cbn iota in H. specialize (IH false H).
      destruct (Split s colon) as [|f fs]; [contradiction|]. destruct IH as [Hf Hfs].
      split; [reflexivity|constructor; assumption].
    + destruct (Ascii.eqb_spec c LF) as [->|Hl].
      * apply andb_true_iff in H as [Hb H]. specialize (IH false H).
        destruct (Split s colon) as [|f fs]; [contradiction|]. destruct IH as [Hf Hfs].
        split; [|exact Hfs]. cbn [crlfFree]. change (Ascii.eqb LF LF) with true. cbn iota.
        rewrite Hb, Hf. reflexivity.
      * specialize (IH _ H).
        destruct (Split s colon) as [|f fs]; [contradiction|]. destruct IH as [Hf Hfs].
        split; [|exact Hfs]. cbn [crlfFree]. apply Ascii.eqb_neq in Hl. rewrite Hl. exact Hf.
Qed.

Lemma Split_noCRLF s i f : noCRLF s -> Split s colon !! i = Some f -> noCRLF f.
Proof.
  intros Hs Hi. apply Split_crlfFree in Hs.
  destruct (Split s colon) as [|f0 fs]; [contradiction|]. destruct Hs as [H0 Hfs].
  destruct i as [|i]; [injection Hi as <-; exact H0|].
  rewrite Forall_forall in Hfs. apply Hfs, list_elem_of_lookup. exists i. exact Hi.
Qed.

Lemma main_raw_file (env : Env) (profile : string) (fs fs' : FS) machines :
  main env profile fs = Done fs' -> ListStateMachines env = inr machines ->
  exists records n,
    fetch env machines = Done (records, n)
    /\ fs' !! "sfn.csv" = Some (csvWriteAll (rawRows records)).
Proof.
  unfold main. intros H El. rewrite El in H.
  destruct (String.eqb profile ""); [discriminate|].
  destruct (newSession env profile); [discriminate|]. cbn in H.
  destruct (fetch env machines) as [[records n]|p] eqn:Ef; [|discriminate]. cbn in H.
  unfold createCsvFile in H.
  destruct (writeFile env "sfn.csv" _ fs) as [err|fs1] eqn:E1; [discriminate|]. cbn in H.
  unfold aggregate, createAggregateCsvFile in H.
  destruct (aggregateRows _) as [rows|p]; [|discriminate]. cbn in H.
  destruct (writeFile env "aggregate.csv" _ fs1) as [err|fs2] eqn:E2; [discriminate|].
  cbn in H. injection H as <-.
  exists records, n. split; [reflexivity|].
  unfold writeFile in E1, E2.
  destruct (createError env "sfn.csv"); [discriminate|].
  destruct (writeError env "sfn.csv"); [discriminate|].
  destruct (createError env "aggregate.csv"); [discriminate|].
  destruct (writeError env "aggregate.csv"); [discriminate|].
  injection E1 as <-. injection E2 as <-.
  rewrite lookup_insert_ne by discriminate. apply lookup_insert_eq.
Qed.

(** X12: when [main] completes and neither an ARN of a listed state
    machine nor a status of a listed execution holds a carriage return
    followed by a line feed, sfn.csv is read back by the Reader of
    encoding/csv as the header row followed by one row per collected
    record, in order: start dates and durations never need a
    condition. *)
Theorem X12_report_reads_back (env : Env) (profile : string) (fs fs' : FS)
    (machines : list StateMachine) :
  main env profile fs = Done fs' -> ListStateMachines env = inr machines ->
  (forall machine arn, machine ∈ machines -> StateMachineArn machine = Some arn -> noCRLF arn) ->
  (forall machine es e status,
     machine ∈ machines -> ListExecutions env machine = inr es -> e ∈ es ->
     exStatus e = Some status -> noCRLF status) ->
  exists records n content,
    fetch env machines = Done (records, n)
    /\ fs' !! "sfn.csv" = Some content
    /\ ReadAll content = ROk (rawHeader :: map recordRow records).
Proof.
  intros Hmain El Harn Hstatus.
  destruct (main_raw_file env profile fs fs' machines Hmain El) as (records & n & Hf & Hfile).
  exists records, n, (csvWriteAll (rawRows records)). split; [exact Hf|]. split; [exact Hfile|].
  apply (ReadAll_csvWriteAll 4); [|lia]. apply rawRows_good.
  unfold fetch in Hf. apply fetch_loop in Hf as (new & -> & Hp & _). simpl.
  eapply Forall_impl; [exact Hp|]. intros r (m & es & e & Hm & Hes & He & Hr).
  pose proof (producedBy_facts m e r Hr) as (_ & _ & Hdate).
  destruct Hr as (start & stop & arn & name & status & _ & _ & Ha & Hn & Hst & ->). simpl in *.
  split; [|split].
  - apply (Split_noCRLF arn 6 name); [apply (Harn m arn Hm Ha)|exact Hn].
  - apply noLF_noCRLF, Hdate.
  - apply (Hstatus m es e status Hm Hes He Hst).
Qed.

Lemma X12_report_reads_back_witness :
  exists records n content,
    fetch scenarioEnv scenarioMachines = Done (records, n)
    /\ (<["aggregate.csv" := csvWriteAll [aggregateHeader; ["A"; "60.00"; "60.00"; "60.00"; "1"]]]>
         (<["sfn.csv" := csvWriteAll (rawHeader :: map recordRow [scenarioRecord])]> ∅) : FS)
       !! "sfn.csv" = Some content
    /\ ReadAll content = ROk (rawHeader :: map recordRow records).
Proof.
  apply (X12_report_reads_back scenarioEnv "default" ∅ _ scenarioMachines).
  - vm_compute. reflexivity.
  - reflexivity.
  - intros machine arn Hin Ha.
    apply elem_of_cons in Hin as [->|Hin]; [injection Ha as <-; reflexivity|].
    apply list_elem_of_singleton in Hin as ->. injection Ha as <-. reflexivity.
  - intros machine es e status Hin Hes He Hst.
    apply elem_of_cons in Hin as [->|Hin].
    + injection Hes as <-. apply list_elem_of_singleton in He as ->.
      injection Hst as <-. reflexivity.
    + apply list_elem_of_singleton in Hin as ->. injection Hes as <-.
      apply list_elem_of_singleton in He as ->. injection Hst as <-. reflexivity.
Defined.
